(** * YoutubeGemini: the video-analysis pipeline of [app.py]

    A shallow embedding of [src/youtube_gemini/app.py].  The script talks to
    four outside parties (the video platform, the Gemini file store, the
    Gemini model and the local disk) and to the Streamlit front end.  Their
    answers are taken from a [backend] record of oracles; every call the
    script makes is appended to a trace, so that statements about "how often"
    and "in which order" become statements about lists of events.

    Python exceptions are values of type [exn]; a computation is a function
    from a [world] to an [outcome] and a new [world]. *)

From Stdlib Require Import ZArith QArith String List Lia.
From stdpp Require Import gmap strings.

#[local] Set Warnings "-clear-no-such-hyp".

Open Scope string_scope.
Open Scope list_scope.
Open Scope Z_scope.

(** ** Exceptions

    Only subclasses of [Exception] are modelled: the [except Exception]
    clauses of the script catch every value of this type.  The constructor
    [OtherException] stands for any class that is none of the named ones
    (a pytubefix error, an [OSError], a Google API error other than
    [ServiceUnavailable], ...). *)

Inductive exn : Type :=
| ServiceUnavailable (msg : string)
| TimeoutError (msg : string)
| RuntimeError (msg : string) (cause : exn)
| NameError (name : string)
| TypeError (msg : string)
| AttributeError (msg : string)
| ValueError (msg : string)
| OverflowError (msg : string)
| OtherException (cls : string) (msg : string).

(** [except ServiceUnavailable as e] *)
Definition is_ServiceUnavailable (e : exn) : bool :=
  match e with
  | ServiceUnavailable _ => true
  | _ => false
  end.

(** ** Data *)

(** The file object of the Gemini SDK, as far as the script reads it:
    [uploaded_file.name] and [uploaded_file.state].  The state is the integer
    of the SDK's enumeration; the script compares it with the literal [2]. *)
Record file : Type := File { name : string; state : Z }.

Definition STATE_UNSPECIFIED : Z := 0.
Definition PROCESSING : Z := 1.
Definition ACTIVE : Z := 2.
Definition FAILED : Z := 10.

(** ** Trace of calls *)

Inductive level : Type := INFO | WARNING | ERROR.

(** One constructor per [logging] call of the script. *)
Inductive logmsg : Type :=
| LogDownloadTry (url : string)
| LogDownloadOk (file_path : string)
| LogDownloadFail (e : exn)
| LogWaitStart (nm : string)
| LogWaitTimeout
| LogWaitDone
| LogLocalDeleted (file_path : string)
| LogLocalDeleteFail (e : exn)
| LogUploadDeleted (nm : string)
| LogUploadDeleteFail (e : exn)
| LogAnalysisStart
| LogAttempt (attempt max_retries : Z)
| LogAnswerDone
| LogOverloaded (e : exn)
| LogRetryExhausted
| LogUnknownError (e : exn)
| LogAnalysisError (e : exn)
| LogTempDeleted
| LogTempDeleteError (e : exn)
| LogNoApiKey
| LogBackground (image_path : string)
| LogBackgroundFail (e : exn).

Inductive event : Type :=
| EvLog (lvl : level) (m : logmsg)
| EvYouTube (url : string)
| EvHighestResolution (url : string)
| EvDownload (url : string) (output_path : string)
| EvUpload (path : string)
| EvTime
| EvSleep (secs : Z)
| EvGetFile (nm : string)
| EvGenerate (model : string) (prompt : string) (f : file) (timeout : Z)
| EvExists (path : string)
| EvRemove (path : string)
| EvRemoteDelete (nm : string)
| EvConfigure (api_key : string)
| EvModel (model_name : string)
| EvStError (msg : string)
| EvStErrorExn (e : exn)
| EvStWarningRetry (attempt max_retries : Z)
| EvStSuccess
| EvStVideo (path : string)
| EvStMarkdown (body : string)
| EvStAnswer (answer : string)
| EvStSpinner
| EvStTitle
| EvStInput (value : string)
| EvStStop.

(** ** The outside world *)

(** What the collaborators answer.  Calls that can be repeated within one run
    are indexed by how many calls of that kind were made before. *)
Record backend : Type := Backend {
  (* [YouTube(url)] *)
  youtube : string -> option exn;
  (* [yt.streams.get_highest_resolution()]: [inr false] is Python's [None] *)
  highest_resolution : string -> exn + bool;
  (* [stream.download(output_path=...)]: the path written, or the error and
     whatever partial file the library left behind *)
  download : string -> (exn * option string) + string;
  (* [genai.upload_file(path=...)] *)
  upload_file : string -> exn + file;
  (* [time.time()]: the readings are floats, which are rationals *)
  time_time : nat -> Q;
  (* [a - b] on two floats: the difference as the machine rounds it *)
  float_sub : Q -> Q -> Q;
  (* [genai.get_file(name)]: the object the service sends back, with the
     name and the state it reports *)
  get_file : nat -> string -> exn + file;
  (* [model.generate_content(..., stream=True)] and the iteration over it:
     the fragments received, then the error that ended the stream, if any *)
  generate_content : nat -> list string * option exn;
  (* [os.remove(path)] *)
  os_remove : nat -> string -> option exn;
  (* [uploaded_file.delete()] *)
  remote_delete : nat -> string -> option exn;
  (* [open(image_path, "rb")] and the read *)
  read_image : string -> option exn
}.

(** The three names [file_path], [uploaded_file] and [answer] of the script's
    top level are bound together, by the tuple assignment under the button;
    until then they are unbound. *)
Record world : Type := World {
  fs : gset string;         (* paths that exist on the local disk *)
  remote : gset string;     (* names of the assets in the remote store *)
  trace : list event;       (* calls made so far, oldest first *)
  globals : option (string * file * string);
  n_time : nat;
  n_get : nat;
  n_gen : nat;
  n_rm : nat;
  n_del : nat
}.

Definition init_world (disk : gset string) : world :=
  World disk ∅ [] None 0 0 0 0 0.

(** ** The computation monad *)

Inductive outcome (A : Type) : Type :=
| Val (a : A)
| Exc (e : exn)
| NoFuel.
Arguments Val {A} a.
Arguments Exc {A} e.
Arguments NoFuel {A}.

Definition M (A : Type) : Type := world -> outcome A * world.

Definition ret {A} (a : A) : M A := fun w => (Val a, w).
Definition raise {A} (e : exn) : M A := fun w => (Exc e, w).
Definition out_of_fuel {A} : M A := fun w => (NoFuel, w).
Definition bind {A B} (m : M A) (k : A -> M B) : M B :=
  fun w =>
    match m w with
    | (Val a, w') => k a w'
    | (Exc e, w') => (Exc e, w')
    | (NoFuel, w') => (NoFuel, w')
    end.

Notation "x <- m ;; k" := (bind m (fun x => k))
  (at level 20, m at level 99, k at level 200, only parsing).
Notation "m ;; k" := (bind m (fun _ => k))
  (at level 100, k at level 200, right associativity, only parsing).

(** [try: body / except Exception as e: handler e] *)
Definition try_except {A} (body : M A) (handler : exn -> M A) : M A :=
  fun w =>
    match body w with
    | (Exc e, w') => handler e w'
    | r => r
    end.

(** [try: body / finally: fin]: [fin] runs on both exits; an exception of
    [fin] replaces the pending one. *)
Definition try_finally {A} (body : M A) (fin : M unit) : M A :=
  fun w =>
    match body w with
    | (NoFuel, w') => (NoFuel, w')
    | (r, w') =>
        match fin w' with
        | (Val _, w'') => (r, w'')
        | (Exc e, w'') => (Exc e, w'')
        | (NoFuel, w'') => (NoFuel, w'')
        end
    end.

Definition emit (ev : event) : M unit :=
  fun w => (Val tt,
            World (fs w) (remote w) (trace w ++ [ev]) (globals w)
                  (n_time w) (n_get w) (n_gen w) (n_rm w) (n_del w)).

Definition log (lvl : level) (m : logmsg) : M unit := emit (EvLog lvl m).

Definition of_sum {A} (r : exn + A) : M A :=
  match r with
  | inl e => raise e
  | inr a => ret a
  end.

Definition of_failure (r : option exn) : M unit :=
  match r with
  | Some e => raise e
  | None => ret tt
  end.

Definition set_fs (f : gset string -> gset string) : M unit :=
  fun w => (Val tt,
            World (f (fs w)) (remote w) (trace w) (globals w)
                  (n_time w) (n_get w) (n_gen w) (n_rm w) (n_del w)).

Definition set_remote (f : gset string -> gset string) : M unit :=
  fun w => (Val tt,
            World (fs w) (f (remote w)) (trace w) (globals w)
                  (n_time w) (n_get w) (n_gen w) (n_rm w) (n_del w)).

Definition set_globals (g : string * file * string) : M unit :=
  fun w => (Val tt,
            World (fs w) (remote w) (trace w) (Some g)
                  (n_time w) (n_get w) (n_gen w) (n_rm w) (n_del w)).

(** Counters: read the number of earlier calls and count this one. *)
Definition tick_time : M nat :=
  fun w => (Val (n_time w),
            World (fs w) (remote w) (trace w) (globals w)
                  (S (n_time w)) (n_get w) (n_gen w) (n_rm w) (n_del w)).
Definition tick_get : M nat :=
  fun w => (Val (n_get w),
            World (fs w) (remote w) (trace w) (globals w)
                  (n_time w) (S (n_get w)) (n_gen w) (n_rm w) (n_del w)).
Definition tick_gen : M nat :=
  fun w => (Val (n_gen w),
            World (fs w) (remote w) (trace w) (globals w)
                  (n_time w) (n_get w) (S (n_gen w)) (n_rm w) (n_del w)).
Definition tick_rm : M nat :=
  fun w => (Val (n_rm w),
            World (fs w) (remote w) (trace w) (globals w)
                  (n_time w) (n_get w) (n_gen w) (S (n_rm w)) (n_del w)).
Definition tick_del : M nat :=
  fun w => (Val (n_del w),
            World (fs w) (remote w) (trace w) (globals w)
                  (n_time w) (n_get w) (n_gen w) (n_rm w) (S (n_del w))).

(** ** The functions of [app.py] *)

Definition MSG_TIMEOUT : string := "파일이 ACTIVE 상태가 되지 않았습니다.".
Definition MSG_OVERLOADED : string :=
  "Gemini 모델이 과부하 상태입니다. 나중에 다시 시도해주세요.".
Definition MSG_NO_KEY : string :=
  "환경변수 'GENAI_API_KEY'에 API 키를 설정해 주세요.".
Definition MSG_NONE_DOWNLOAD : string :=
  "'NoneType' object has no attribute 'download'".
Definition MSG_UNPACK_NONE : string :=
  "cannot unpack non-iterable NoneType object".
Definition MSG_SLEEP_NEGATIVE : string :=
  "sleep length must be non-negative".
Definition MSG_SLEEP_OVERFLOW : string :=
  "timestamp too large to convert to C _PyTime_t".

(** The largest number of seconds whose count of nanoseconds fits the
    signed 64-bit integer [time.sleep] converts its argument to. *)
Definition SLEEP_MAX : Z := 9223372036.

(** The exception [time.sleep(secs)] raises for an integer [secs] it does
    not accept: [OverflowError] when the nanoseconds do not fit,
    [ValueError] when the length is negative. *)
Definition sleep_error (secs : Z) : option exn :=
  if (secs <? - SLEEP_MAX) || (SLEEP_MAX <? secs) then
    Some (OverflowError MSG_SLEEP_OVERFLOW)
  else if secs <? 0 then Some (ValueError MSG_SLEEP_NEGATIVE)
  else None.

(** Python's [range(lo, hi)] *)
Definition range (lo hi : Z) : list Z :=
  map (fun i => lo + Z.of_nat i) (seq 0 (Z.to_nat (hi - lo))).

(** [answer = ""; for response in responses: answer += response.text] *)
Fixpoint stream_loop (answer : string) (responses : list string) : string :=
  match responses with
  | [] => answer
  | response :: rest => stream_loop (answer ++ response) rest
  end.

Section Program.

Variable B : backend.

(** [time.time()] *)
Definition time : M Q :=
  k <- tick_time;;
  emit EvTime;;
  ret (time_time B k).

(** [time.sleep(secs)] *)
Definition time_sleep (secs : Z) : M unit :=
  emit (EvSleep secs);;
  of_failure (sleep_error secs).

(** [os.path.exists(path)] *)
Definition path_exists (path : string) : M bool :=
  emit (EvExists path);;
  (fun w => (Val (bool_decide (path ∈ fs w)), w)).

(** [stream.download(output_path="./videos")] *)
Definition stream_download (url : string) : M string :=
  emit (EvDownload url "./videos");;
  match download B url with
  | inr file_path =>
      set_fs (fun disk => {[file_path]} ∪ disk);;
      ret file_path
  | inl (e, None) => raise e
  | inl (e, Some partial) =>
      set_fs (fun disk => {[partial]} ∪ disk);;
      raise e
  end.

Definition download_youtube (url : string) : M string :=
  log INFO (LogDownloadTry url);;
  try_except
    (emit (EvYouTube url);;
     of_failure (youtube B url);;
     emit (EvHighestResolution url);;
     stream <- of_sum (highest_resolution B url);;
     file_path <- match stream with
                  | true => stream_download url
                  | false => raise (AttributeError MSG_NONE_DOWNLOAD)
                  end;;
     log INFO (LogDownloadOk file_path);;
     ret file_path)
    (fun e =>
       log ERROR (LogDownloadFail e);;
       raise e).

(** [genai.upload_file(path=file_path)] *)
Definition genai_upload_file (file_path : string) : M file :=
  emit (EvUpload file_path);;
  f <- of_sum (upload_file B file_path);;
  set_remote (fun store => {[name f]} ∪ store);;
  ret f.

(** [genai.get_file(name)] *)
Definition genai_get_file (nm : string) : M file :=
  k <- tick_get;;
  emit (EvGetFile nm);;
  of_sum (get_file B k nm).

(** The [while] loop of [wait_for_file_active]; [fuel] bounds the number of
    iterations.  The elapsed time is the difference of two floats, as
    [float_sub] computes it; its comparison with the integer [timeout] is
    exact, as Python's comparison of a float with an integer is.  A poll
    replaces [uploaded_file] by the object the service sent, so the next
    poll asks for that object's name. *)
Fixpoint wait_loop (fuel : nat) (start_time : Q) (timeout interval : Z)
    (uploaded_file : file) : M file :=
  if negb (state uploaded_file =? 2) then
    match fuel with
    | O => out_of_fuel
    | S fuel' =>
        now <- time;;
        let elapsed := float_sub B now start_time in
        if Qlt_le_dec (inject_Z timeout) elapsed then
          log ERROR LogWaitTimeout;;
          raise (TimeoutError MSG_TIMEOUT)
        else
          time_sleep interval;;
          uploaded_file' <- genai_get_file (name uploaded_file);;
          wait_loop fuel' start_time timeout interval uploaded_file'
    end
  else ret uploaded_file.

Definition wait_for_file_active (fuel : nat) (uploaded_file : file)
    (timeout interval : Z) : M file :=
  log INFO (LogWaitStart (name uploaded_file));;
  start_time <- time;;
  uploaded_file <- wait_loop fuel start_time timeout interval uploaded_file;;
  log INFO LogWaitDone;;
  ret uploaded_file.

Definition delete_file (file_path : string) (uploaded_file : file) : M unit :=
  try_except
    (ex <- path_exists file_path;;
     match ex with
     | true =>
         k <- tick_rm;;
         emit (EvRemove file_path);;
         of_failure (os_remove B k file_path);;
         set_fs (fun disk => disk ∖ {[file_path]});;
         log INFO (LogLocalDeleted file_path)
     | false => ret tt
     end)
    (fun e => log WARNING (LogLocalDeleteFail e));;
  try_except
    (k <- tick_del;;
     emit (EvRemoteDelete (name uploaded_file));;
     of_failure (remote_delete B k (name uploaded_file));;
     set_remote (fun store => store ∖ {[name uploaded_file]});;
     log INFO (LogUploadDeleted (name uploaded_file)))
    (fun e => log WARNING (LogUploadDeleteFail e)).

(** [model.generate_content(contents, stream=True, request_options=...)]
    followed by the loop over the responses. *)
Definition generate_answer (model prompt : string) (uploaded_file : file)
    : M string :=
  k <- tick_gen;;
  emit (EvGenerate model prompt uploaded_file 120);;
  match generate_content B k with
  | (responses, None) => ret (stream_loop "" responses)
  | (_, Some e) => raise e
  end.

(** The [for attempt in range(1, max_retries + 1)] loop of [recog_video].
    Falling out of the loop makes the function return [None]. *)
Fixpoint attempts_loop (model prompt file_path : string) (uploaded_file : file)
    (max_retries retry_delay : Z) (attempts : list Z)
    : M (option (string * file * string)) :=
  match attempts with
  | [] => ret None
  | attempt :: rest =>
      r <- try_except
             (log INFO (LogAttempt attempt max_retries);;
              answer <- generate_answer model prompt uploaded_file;;
              log INFO LogAnswerDone;;
              ret (Some (Some (file_path, uploaded_file, answer))))
             (fun e =>
                if is_ServiceUnavailable e then
                  log WARNING (LogOverloaded e);;
                  if attempt <? max_retries then
                    emit (EvStWarningRetry attempt max_retries);;
                    time_sleep retry_delay;;
                    ret None
                  else
                    delete_file file_path uploaded_file;;
                    log ERROR LogRetryExhausted;;
                    raise (RuntimeError MSG_OVERLOADED e)
                else
                  log ERROR (LogUnknownError e);;
                  delete_file file_path uploaded_file;;
                  raise e);;
      match r with
      | Some result => ret result
      | None => attempts_loop model prompt file_path uploaded_file
                  max_retries retry_delay rest
      end
  end.

Definition recog_video (fuel : nat) (prompt url model : string)
    (max_retries retry_delay : Z) : M (option (string * file * string)) :=
  log INFO LogAnalysisStart;;
  file_path <- download_youtube url;;
  uploaded_file <- genai_upload_file file_path;;
  uploaded_file <- wait_for_file_active fuel uploaded_file 300 1;;
  attempts_loop model prompt file_path uploaded_file max_retries retry_delay
    (range 1 (max_retries + 1)).

Definition set_background_image (image_path : string) : M unit :=
  log INFO (LogBackground image_path);;
  try_except
    (of_failure (read_image B image_path);;
     emit (EvStMarkdown "background css"))
    (fun e => log WARNING (LogBackgroundFail e)).

(** Reading the names [file_path] and [uploaded_file] at the top level. *)
Definition read_globals : M (string * file) :=
  fun w =>
    match globals w with
    | Some (file_path, uploaded_file, _) => (Val (file_path, uploaded_file), w)
    | None => (Exc (NameError "file_path"), w)
    end.

(** [os.getenv(key)] and [os.getenv(key, default)] *)
Definition getenv (environ : gmap string string) (key : string)
    : option string :=
  environ !! key.

Definition getenv_default (environ : gmap string string) (key dflt : string)
    : string :=
  match environ !! key with
  | Some v => v
  | None => dflt
  end.

(** The body of [if st.button(...)]. *)
Definition button_handler (fuel : nat) (environ : gmap string string)
    (prompt url : string) : M unit :=
  let model_name := getenv_default environ "GENAI_MODEL_NAME" "gemini-2.0-flash" in
  emit (EvModel model_name);;
  try_finally
    (try_except
       (emit EvStSpinner;;
        r <- recog_video fuel prompt url model_name 5 10;;
        match r with
        | None => raise (TypeError MSG_UNPACK_NONE)
        | Some (file_path, uploaded_file, answer) =>
            set_globals (file_path, uploaded_file, answer);;
            emit (EvStVideo file_path);;
            emit (EvStMarkdown "box style");;
            emit (EvStAnswer answer)
        end)
       (fun e =>
          log ERROR (LogAnalysisError e);;
          emit (EvStErrorExn e)))
    (try_except
       (g <- read_globals;;
        delete_file (fst g) (snd g);;
        log INFO LogTempDeleted;;
        emit EvStSuccess)
       (fun e => log WARNING (LogTempDeleteError e))).

(** Python's truth value of [API_KEY : Optional[str]] *)
Definition truthy (v : option string) : bool :=
  match v with
  | None => false
  | Some "" => false
  | Some _ => true
  end.

Inductive script_end : Type := Stopped | Finished.

Definition background_image_path : string :=
  "/Users/jini/Downloads/jini/st_coding/gemini_youtube/background.jpg".

(** One run of the script, top to bottom.  [clicked] is what [st.button]
    returns; [url] and [prompt] are the contents of the two input widgets. *)
Definition app (fuel : nat) (environ : gmap string string)
    (url prompt : string) (clicked : bool) : M script_end :=
  let API_KEY := getenv environ "GENAI_API_KEY" in
  if negb (truthy API_KEY) then
    emit (EvStError MSG_NO_KEY);;
    log ERROR LogNoApiKey;;
    emit EvStStop;;
    ret Stopped
  else
    emit (EvConfigure (default "" API_KEY));;
    set_background_image background_image_path;;
    emit EvStTitle;;
    emit (EvStInput url);;
    emit (EvStInput prompt);;
    (if clicked then button_handler fuel environ prompt url else ret tt);;
    ret Finished.

End Program.

(** ** Observations on traces *)

Definition is_generate (ev : event) : bool :=
  match ev with EvGenerate _ _ _ _ => true | _ => false end.
Definition is_sleep (ev : event) : bool :=
  match ev with EvSleep _ => true | _ => false end.
Definition is_exists (ev : event) : bool :=
  match ev with EvExists _ => true | _ => false end.
Definition is_remove (ev : event) : bool :=
  match ev with EvRemove _ => true | _ => false end.
Definition is_remote_delete (ev : event) : bool :=
  match ev with EvRemoteDelete _ => true | _ => false end.
Definition is_get_file (ev : event) : bool :=
  match ev with EvGetFile _ => true | _ => false end.
Definition is_download (ev : event) : bool :=
  match ev with EvDownload _ _ => true | _ => false end.
Definition is_upload (ev : event) : bool :=
  match ev with EvUpload _ => true | _ => false end.

(** A deletion of either asset, local or remote. *)
Definition is_deletion (ev : event) : bool :=
  is_exists ev || is_remove ev || is_remote_delete ev.

(** The calls by which the retry policy is told: generation requests, sleeps
    and remote deletions. *)
Definition is_retry_step (ev : event) : bool :=
  is_generate ev || is_sleep ev || is_remote_delete ev.

(** The calls that make up the attempts: generation requests and sleeps. *)
Definition is_attempt_step (ev : event) : bool :=
  is_generate ev || is_sleep ev.

(** Generation requests carry an asset that was seen in state [2]. *)
Definition generate_on_active (ev : event) : Prop :=
  match ev with
  | EvGenerate _ _ f _ => state f = 2
  | _ => True
  end.

Definition count (p : event -> bool) (evs : list event) : nat :=
  length (List.filter p evs).

(** The calls made between two worlds of one run. *)
Definition new_events (w w' : world) : list event :=
  drop (length (trace w)) (trace w').

(** Every invocation of [delete_file] calls [uploaded_file.delete()] once,
    and nothing else calls it: the number of invocations is the number of
    these calls. *)
Definition cleanup_calls (evs : list event) : nat :=
  count is_remote_delete evs.

(** ** Reading the oracles *)

(** The [k]-th generation ends with the overloaded error. *)
Definition overloaded_at (B : backend) (k : nat) : bool :=
  match snd (generate_content B k) with
  | Some e => is_ServiceUnavailable e
  | None => false
  end.

(** The error that ends the [k]-th generation. *)
Definition error_at (B : backend) (k : nat) : exn :=
  match snd (generate_content B k) with
  | Some e => e
  | None => ServiceUnavailable ""
  end.

(** The object looked at at the top of iteration [i] of the polling loop:
    the uploaded object itself first, then the answers of [genai.get_file],
    of which [g0] were consumed before.  Each poll asks for the name of the
    object the previous one returned. *)
Fixpoint seen_file (B : backend) (g0 : nat) (uploaded_file : file)
    (i : nat) : option file :=
  match i with
  | O => Some uploaded_file
  | S i' =>
      match get_file B g0 (name uploaded_file) with
      | inr polled => seen_file B (S g0) polled i'
      | inl _ => None
      end
  end.

Definition seen_state (B : backend) (g0 : nat) (uploaded_file : file)
    (i : nat) : option Z :=
  match seen_file B g0 uploaded_file i with
  | Some f => Some (state f)
  | None => None
  end.

(** The names the first [k] polls ask for. *)
Fixpoint polled_names (B : backend) (g0 : nat) (uploaded_file : file)
    (k : nat) : list string :=
  match k with
  | O => []
  | S k' =>
      name uploaded_file
      :: match get_file B g0 (name uploaded_file) with
         | inr polled => polled_names B (S g0) polled k'
         | inl _ => []
         end
  end.

Definition pending_at (B : backend) (g0 : nat) (uploaded_file : file)
    (i : nat) : bool :=
  match seen_state B g0 uploaded_file i with
  | Some st => negb (st =? 2)
  | None => false
  end.

Definition active_at (B : backend) (g0 : nat) (uploaded_file : file)
    (i : nat) : bool :=
  match seen_state B g0 uploaded_file i with
  | Some st => st =? 2
  | None => false
  end.

(** The elapsed time computed in iteration [i] of the polling loop, when
    [t0] readings of the clock were taken before the loop's start time. *)
Definition elapsed_at (B : backend) (t0 i : nat) : Q :=
  float_sub B (time_time B (S t0 + i)) (time_time B t0).

(** [elapsed > timeout] in iteration [i] *)
Definition timed_out_at (B : backend) (t0 : nat) (timeout : Z) (i : nat)
    : bool :=
  if Qlt_le_dec (inject_Z timeout) (elapsed_at B t0 i) then true else false.

(** ** Worlds after a known list of calls *)

Definition after_generations (evs : list event) (gens : nat) (w : world)
    : world :=
  World (fs w) (remote w) (trace w ++ evs) (globals w)
        (n_time w) (n_get w) (gens + n_gen w) (n_rm w) (n_del w).

Definition after_polls (evs : list event) (polls : nat) (w : world) : world :=
  World (fs w) (remote w) (trace w ++ evs) (globals w)
        (polls + n_time w) (polls + n_get w) (n_gen w) (n_rm w) (n_del w).

(** The calls of one overloaded attempt that is followed by a retry. *)
Definition retry_events (B : backend) (model prompt : string)
    (uploaded_file : file) (max_retries retry_delay : Z)
    (attempt : Z) (k : nat) : list event :=
  [ EvLog INFO (LogAttempt attempt max_retries);
    EvGenerate model prompt uploaded_file 120;
    EvLog WARNING (LogOverloaded (error_at B k));
    EvStWarningRetry attempt max_retries;
    EvSleep retry_delay ].

(** The calls of [j] such attempts in a row, numbered from [attempt], the
    first of them being generation number [k]. *)
Fixpoint retries_events (B : backend) (model prompt : string)
    (uploaded_file : file) (max_retries retry_delay : Z)
    (j : nat) (attempt : Z) (k : nat) : list event :=
  match j with
  | O => []
  | S j' =>
      retry_events B model prompt uploaded_file max_retries retry_delay
        attempt k
      ++ retries_events B model prompt uploaded_file max_retries retry_delay
           j' (attempt + 1) (S k)
  end.

(** The calls of one round of polling: read the clock, sleep, ask. *)
Definition poll_events (interval : Z) (nm : string) : list event :=
  [ EvTime; EvSleep interval; EvGetFile nm ].

Fixpoint polls_events (interval : Z) (names : list string) : list event :=
  match names with
  | [] => []
  | nm :: rest => poll_events interval nm ++ polls_events interval rest
  end.

(** From the spec: the answer is the fragments joined in order, with
    nothing between them. *)
Definition spec_concatenation (fragments : list string) : string :=
  String.concat "" fragments.

(** A generation request and a pause, [j] times over. *)
Fixpoint alternate (request pause : event) (j : nat) : list event :=
  match j with
  | O => []
  | S j' => request :: pause :: alternate request pause j'
  end.

(** ** What a call of [delete_file] leaves behind

    [evs] are the calls it made from world [w], and [w'] is the world after
    it. *)
Record cleanup_effect (B : backend) (file_path : string)
    (uploaded_file : file) (w : world) (evs : list event) (w' : world)
    : Prop := {
  ce_trace : trace w' = trace w ++ evs;
  ce_first : hd_error evs = Some (EvExists file_path);
  ce_exists : count is_exists evs = 1%nat;
  ce_remote : count is_remote_delete evs = 1%nat;
  ce_remove :
    count is_remove evs
    = (if bool_decide (file_path ∈ fs w) then 1 else 0)%nat;
  ce_steps :
    List.filter is_retry_step evs = [EvRemoteDelete (name uploaded_file)];
  ce_no_generate : List.filter is_generate evs = [];
  ce_globals : globals w' = globals w;
  ce_n_gen : n_gen w' = n_gen w;
  ce_fs_sub : fs w' ⊆ fs w;
  ce_remote_sub : remote w' ⊆ remote w;
  ce_fs_gone : os_remove B (n_rm w) file_path = None -> file_path ∉ fs w';
  ce_remote_gone :
    remote_delete B (n_del w) (name uploaded_file) = None ->
    name uploaded_file ∉ remote w';
  ce_fs_absent : file_path ∉ fs w -> fs w' = fs w
}.

(** ** What a run of the generation loop leaves behind

    The calls split into [pre], which holds every generation request and no
    deletion, and [post], which holds the deletions and no request. *)
Record loop_effect (request : event) (max_retries retry_delay : Z)
    (attempts : list Z)
    (w : world) (r : outcome (option (string * file * string)) * world)
    (pre post : list event) : Prop := {
  le_trace : trace (snd r) = trace w ++ pre ++ post;
  le_pre : List.filter is_deletion pre = [];
  le_post : List.filter is_generate post = [];
  le_same : Forall (fun ev => is_generate ev = true -> ev = request) pre;
  le_globals : globals (snd r) = globals w;
  le_returns : forall v, fst r = Val v -> post = [];
  le_started : attempts <> [] -> (1 <= count is_generate pre)%nat;
  le_empty : attempts = [] -> pre = [] /\ post = [];
  le_none :
    fst r = Val None -> Forall (fun attempt => attempt < max_retries) attempts;
  le_raises :
    forall e, fst r = Exc e ->
      (count is_remote_delete post = 1%nat /\ count is_exists post = 1%nat)
      \/ (post = [] /\ sleep_error retry_delay = Some e);
  le_fuel : fst r <> NoFuel
}.

(** ** Quiet computations

    A computation is quiet when it only adds calls to the trace, none of
    them a generation request or a deletion, and leaves the top-level names
    as they were. *)
Record quiet_effect {A : Type} (w : world) (r : outcome A * world)
    (evs : list event) : Prop := {
  q_trace : trace (snd r) = trace w ++ evs;
  q_generate : List.filter is_generate evs = [];
  q_deletion : List.filter is_deletion evs = [];
  q_globals : globals (snd r) = globals w
}.

Definition Quiet {A : Type} (m : M A) : Prop :=
  forall w : world, exists evs, quiet_effect w (m w) evs.

(** The link is refused before any byte is written: the error of
    [YouTube(url)], of the stream query, or of calling [download] on
    [None]. *)
Definition refused_before_download (B : backend) (url : string)
    : option exn :=
  match youtube B url with
  | Some e => Some e
  | None =>
      match highest_resolution B url with
      | inl e => Some e
      | inr false => Some (AttributeError MSG_NONE_DOWNLOAD)
      | inr true => None
      end
  end.

(** The stages of [recog_video] that come before the generation loop. *)
Definition upload_stage (B : backend) (fuel : nat) (url : string)
    : M (string * file) :=
  log INFO LogAnalysisStart;;
  file_path <- download_youtube B url;;
  uploaded_file <- genai_upload_file B file_path;;
  uploaded_file <- wait_for_file_active B fuel uploaded_file 300 1;;
  ret (file_path, uploaded_file).

(** Generation requests are addressed to the model [model]. *)
Definition requests_model (model : string) (ev : event) : Prop :=
  match ev with
  | EvGenerate m _ _ _ => m = model
  | _ => True
  end.

(** ** What a run of [recog_video] leaves behind

    [stage] are the calls of the download, upload and activation stages,
    [rest] those of the generation loop. *)
Record pipeline_effect (model : string) (retry_delay : Z) (w : world)
    (r : outcome (option (string * file * string)) * world)
    (stage rest : list event) : Prop := {
  pe_trace : trace (snd r) = trace w ++ stage ++ rest;
  pe_globals : globals (snd r) = globals w;
  pe_stage_generate : List.filter is_generate stage = [];
  pe_stage_deletion : List.filter is_deletion stage = [];
  pe_active : Forall generate_on_active rest;
  pe_model : Forall (requests_model model) rest;
  pe_waited :
    rest <> [] -> exists stage', stage = stage' ++ [EvLog INFO LogWaitDone];
  pe_started : rest <> [] -> (1 <= count is_generate rest)%nat;
  pe_val : forall v, fst r = Val v -> cleanup_calls rest = 0%nat;
  pe_exc :
    sleep_error retry_delay = None ->
    forall e, fst r = Exc e -> rest <> [] -> cleanup_calls rest = 1%nat;
  pe_early : rest = [] -> forall v, fst r <> Val (Some v);
  pe_fuel : fst r = NoFuel -> rest = []
}.

(** ** What a run of the button handler leaves behind

    The handler first builds the model and opens the spinner; [rv] is the
    run of [recog_video] from there, [r] the run of the whole handler and
    [tail] the calls made after [recog_video] came back. *)
Definition handler_entry (model : string) (w : world) : world :=
  World (fs w) (remote w) (trace w ++ [EvModel model; EvStSpinner])
        (globals w) (n_time w) (n_get w) (n_gen w) (n_rm w) (n_del w).

Record handler_effect (w : world)
    (rv : outcome (option (string * file * string)) * world)
    (r : outcome unit * world) (tail : list event) : Prop := {
  he_trace : trace (snd r) = trace (snd rv) ++ tail;
  he_generate : List.filter is_generate tail = [];
  he_total : forall e, fst r <> Exc e;
  he_fuel : fst r = NoFuel <-> fst rv = NoFuel;
  he_success : forall v, fst rv = Val (Some v) -> cleanup_calls tail = 1%nat;
  he_failure :
    (forall v, fst rv <> Val (Some v)) ->
    globals w = None ->
    cleanup_calls tail = 0%nat;
  he_stale :
    (forall v, fst rv <> Val (Some v)) ->
    fst rv <> NoFuel ->
    globals w <> None ->
    cleanup_calls tail = 1%nat
}.

(** ** Scenarios *)

(** A cooperative outside world: the video downloads to [./videos/v.mp4],
    the upload is named [files/abc] and is still being processed, it becomes
    active at the third poll and keeps its name, the clock advances one
    second per reading and the differences of readings are exact, and the
    model answers in three fragments. *)
Definition calm : backend := {|
  youtube := fun _ => None;
  highest_resolution := fun _ => inr true;
  download := fun _ => inr "./videos/v.mp4";
  upload_file := fun _ => inr (File "files/abc" PROCESSING);
  time_time := fun k => inject_Z (Z.of_nat k);
  float_sub := Qminus;
  get_file :=
    fun k nm => inr (File nm (if (k <? 2)%nat then PROCESSING else ACTIVE));
  generate_content := fun _ => (["Hello, "; "world"; "!"], None);
  os_remove := fun _ _ => None;
  remote_delete := fun _ _ => None;
  read_image := fun _ => None
|}.

Definition with_generate (g : nat -> list string * option exn) (B : backend)
    : backend :=
  Backend (youtube B) (highest_resolution B) (download B) (upload_file B)
          (time_time B) (float_sub B) (get_file B) g (os_remove B)
          (remote_delete B) (read_image B).

Definition with_get_file (g : nat -> string -> exn + file) (B : backend)
    : backend :=
  Backend (youtube B) (highest_resolution B) (download B) (upload_file B)
          (time_time B) (float_sub B) g (generate_content B) (os_remove B)
          (remote_delete B) (read_image B).

Definition with_upload_file (u : string -> exn + file) (B : backend)
    : backend :=
  Backend (youtube B) (highest_resolution B) (download B) u
          (time_time B) (float_sub B) (get_file B) (generate_content B)
          (os_remove B) (remote_delete B) (read_image B).

Definition with_youtube (y : string -> option exn) (B : backend) : backend :=
  Backend y (highest_resolution B) (download B) (upload_file B)
          (time_time B) (float_sub B) (get_file B) (generate_content B)
          (os_remove B) (remote_delete B) (read_image B).

Definition with_deletions (rm del : nat -> string -> option exn)
    (B : backend) : backend :=
  Backend (youtube B) (highest_resolution B) (download B) (upload_file B)
          (time_time B) (float_sub B) (get_file B) (generate_content B) rm
          del (read_image B).

(** The model is overloaded at every request. *)
Definition always_overloaded : backend :=
  with_generate (fun _ => ([], Some (ServiceUnavailable "503"))) calm.

(** The model is overloaded twice and answers the third request. *)
Definition overloaded_twice : backend :=
  with_generate
    (fun k => if (k <? 2)%nat then (["par"], Some (ServiceUnavailable "503"))
              else (["Hello, "; "world"; "!"], None))
    calm.

(** The second request is refused for a reason other than overload, after
    one fragment was received. *)
Definition refused_second : backend :=
  with_generate
    (fun k => if (k <? 1)%nat then ([], Some (ServiceUnavailable "503"))
              else (["Hel"], Some (OtherException "InvalidArgument" "400")))
    calm.

(** The uploaded asset fails to process: every poll reports [FAILED]. *)
Definition never_active : backend :=
  with_get_file (fun _ nm => inr (File nm FAILED)) calm.

(** The upload is refused. *)
Definition upload_refused : backend :=
  with_upload_file
    (fun _ => inl (OtherException "ResourceExhausted" "quota")) calm.

(** The link is not a video link. *)
Definition bad_link : backend :=
  with_youtube (fun _ => Some (OtherException "RegexMatchError" "url")) calm.

(** Both deletions fail. *)
Definition stubborn : backend :=
  with_deletions
    (fun _ _ => Some (OtherException "PermissionError" "busy"))
    (fun _ _ => Some (OtherException "NotFound" "404"))
    calm.

Definition key_only : gmap string string := {[ "GENAI_API_KEY" := "secret" ]}.

Definition video_url : string := "https://www.youtube.com/watch?v=-psgagqWoIo".

(** The default text of the prompt widget. *)
Definition prompt_default : string := "
- 어떤 사람이 주인공인지 인상착의를 말해주세요.
- 보고 느낀 점을 한 문장으로 말해주세요.
- 가장 인상적인 장면을 한 문장으로 말해주세요.
".

(** * Properties *)

(** ** Lists of events *)

Lemma count_nil (p : event -> bool) : count p [] = 0%nat.
Proof. reflexivity. Qed.

Lemma count_app (p : event -> bool) (l1 l2 : list event) :
  count p (l1 ++ l2) = (count p l1 + count p l2)%nat.
Proof. unfold count. now rewrite List.filter_app, length_app. Qed.

Lemma count_cons (p : event -> bool) (ev : event) (l : list event) :
  count p (ev :: l) = ((if p ev then 1 else 0) + count p l)%nat.
Proof. unfold count. simpl. now destruct (p ev). Qed.

Lemma new_events_app (w w' : world) (evs : list event) :
  trace w' = trace w ++ evs -> new_events w w' = evs.
Proof. intros H. unfold new_events. rewrite H. apply drop_app_length. Qed.

(** ** Strings *)

Lemma string_app_cons (ch : Ascii.ascii) (a b : string) :
  (String ch a ++ b = String ch (a ++ b))%string.
Proof. reflexivity. Qed.

Lemma string_app_assoc (a b c : string) :
  ((a ++ b) ++ c = a ++ (b ++ c))%string.
Proof.
  induction a as [|ch a IH]; [reflexivity |].
  now rewrite !string_app_cons, IH.
Qed.

Lemma string_app_nil_r (a : string) : (a ++ "" = a)%string.
Proof.
  induction a as [|ch a IH]; [reflexivity |].
  now rewrite string_app_cons, IH.
Qed.

Lemma concat_empty_cons (x : string) (l : list string) :
  String.concat "" (x :: l) = (x ++ String.concat "" l)%string.
Proof. destruct l; simpl; [now rewrite string_app_nil_r | reflexivity]. Qed.

Lemma stream_loop_from (answer : string) (responses : list string) :
  stream_loop answer responses
  = (answer ++ spec_concatenation responses)%string.
Proof.
  unfold spec_concatenation. revert answer.
  induction responses as [|r rest IH]; intros answer.
  - simpl. now rewrite string_app_nil_r.
  - change (stream_loop answer (r :: rest))
      with (stream_loop (answer ++ r) rest).
    now rewrite IH, concat_empty_cons, string_app_assoc.
Qed.

(** ** Running the primitives *)

Ltac run :=
  unfold bind, try_except, try_finally, ret, raise, out_of_fuel, log, emit,
    of_sum, of_failure, set_fs, set_remote, set_globals,
    tick_time, tick_get, tick_gen, tick_rm, tick_del; simpl.

Ltac trace_eq := simpl; rewrite <- ?app_assoc; reflexivity.

(** The lengths [time.sleep] accepts. *)
Lemma sleep_error_accepts (secs : Z) :
  sleep_error secs = None <-> 0 <= secs <= SLEEP_MAX.
Proof.
  unfold sleep_error.
  destruct (Z.ltb_spec secs (- SLEEP_MAX)), (Z.ltb_spec SLEEP_MAX secs),
    (Z.ltb_spec secs 0); simpl; split; intros Hs;
    try discriminate; try reflexivity; unfold SLEEP_MAX in *; lia.
Qed.

(** What one call of [delete_file] does, whatever the two deletions answer. *)
Lemma delete_file_run (B : backend) (file_path : string) (uploaded_file : file)
    (w : world) :
  exists evs w',
    delete_file B file_path uploaded_file w = (Val tt, w')
    /\ cleanup_effect B file_path uploaded_file w evs w'.
Proof.
  unfold delete_file, path_exists. run.
  destruct (bool_decide (file_path ∈ fs w)) eqn:Hex;
    [apply bool_decide_eq_true in Hex | apply bool_decide_eq_false in Hex];
    simpl;
    destruct (os_remove B (n_rm w) file_path) eqn:Hrm; run;
    destruct (remote_delete B (n_del w) (name uploaded_file)) eqn:Hdel;
    run; eexists _, _;
    (split; [reflexivity |]);
    (split; simpl;
     [trace_eq | reflexivity | reflexivity | reflexivity | | reflexivity
     | reflexivity | reflexivity | reflexivity | .. ]);
    try (rewrite bool_decide_eq_true_2 by assumption; reflexivity);
    try (rewrite bool_decide_eq_false_2 by assumption; reflexivity);
    try discriminate; try reflexivity; try set_solver.
Qed.

(** ** Ranges and worlds *)

Lemma range_cons (lo hi : Z) :
  lo < hi -> range lo hi = lo :: range (lo + 1) hi.
Proof.
  intros Hlt. unfold range.
  replace (Z.to_nat (hi - lo)) with (S (Z.to_nat (hi - (lo + 1)))) by lia.
  simpl. f_equal; [lia |].
  rewrite <- seq_shift, map_map.
  apply map_ext. intros i. lia.
Qed.

Lemma range_nil (lo hi : Z) : hi <= lo -> range lo hi = [].
Proof.
  intros Hle. unfold range.
  now replace (Z.to_nat (hi - lo)) with 0%nat by lia.
Qed.

Lemma after_generations_nil (w : world) : after_generations [] 0 w = w.
Proof. destruct w. unfold after_generations. simpl. now rewrite app_nil_r. Qed.

Lemma after_generations_twice (evs1 evs2 : list event) (g1 g2 : nat)
    (w : world) :
  after_generations evs2 g2 (after_generations evs1 g1 w)
  = after_generations (evs1 ++ evs2) (g1 + g2) w.
Proof.
  unfold after_generations. simpl. rewrite <- app_assoc.
  f_equal. lia.
Qed.

Lemma after_polls_nil (w : world) : after_polls [] 0 w = w.
Proof. destruct w. unfold after_polls. simpl. now rewrite app_nil_r. Qed.

Lemma after_polls_twice (evs1 evs2 : list event) (k1 k2 : nat) (w : world) :
  after_polls evs2 k2 (after_polls evs1 k1 w)
  = after_polls (evs1 ++ evs2) (k1 + k2) w.
Proof.
  unfold after_polls. simpl. rewrite <- app_assoc.
  f_equal; lia.
Qed.

(** ** The retry loop, one attempt at a time *)

Section Attempts.

Variable B : backend.
Variables model prompt file_path : string.
Variable uploaded_file : file.
Variables max_retries retry_delay : Z.

Let loop := attempts_loop B model prompt file_path uploaded_file
              max_retries retry_delay.
Let request := EvGenerate model prompt uploaded_file 120.

Lemma generate_answer_run (w : world) :
  generate_answer B model prompt uploaded_file w
  = (match snd (generate_content B (n_gen w)) with
     | None => Val (stream_loop "" (fst (generate_content B (n_gen w))))
     | Some e => Exc e
     end,
     after_generations [request] 1 w).
Proof.
  unfold generate_answer. run.
  now destruct (generate_content B (n_gen w)) as [responses [e|]].
Qed.

(** One turn of the loop, by cases on how the generation ended. *)
Lemma loop_cons (attempt : Z) (rest : list Z) (w : world) :
  loop (attempt :: rest) w
  = match snd (generate_content B (n_gen w)) with
    | None =>
        (Val (Some (file_path, uploaded_file,
                    stream_loop "" (fst (generate_content B (n_gen w))))),
         after_generations
           [EvLog INFO (LogAttempt attempt max_retries); request;
            EvLog INFO LogAnswerDone] 1 w)
    | Some e =>
        if is_ServiceUnavailable e then
          if attempt <? max_retries then
            match sleep_error retry_delay with
            | None =>
                loop rest
                  (after_generations
                     [EvLog INFO (LogAttempt attempt max_retries); request;
                      EvLog WARNING (LogOverloaded e);
                      EvStWarningRetry attempt max_retries;
                      EvSleep retry_delay] 1 w)
            | Some refusal =>
                (Exc refusal,
                 after_generations
                   [EvLog INFO (LogAttempt attempt max_retries); request;
                    EvLog WARNING (LogOverloaded e);
                    EvStWarningRetry attempt max_retries;
                    EvSleep retry_delay] 1 w)
            end
          else
            (Exc (RuntimeError MSG_OVERLOADED e),
             after_generations [EvLog ERROR LogRetryExhausted] 0
               (snd (delete_file B file_path uploaded_file
                       (after_generations
                          [EvLog INFO (LogAttempt attempt max_retries);
                           request; EvLog WARNING (LogOverloaded e)] 1 w))))
        else
          (Exc e,
           snd (delete_file B file_path uploaded_file
                  (after_generations
                     [EvLog INFO (LogAttempt attempt max_retries); request;
                      EvLog ERROR (LogUnknownError e)] 1 w)))
    end.
Proof.
  unfold loop. simpl. unfold bind at 1, try_except at 1.
  unfold bind at 1, log at 1, emit at 1.
  unfold bind at 1. rewrite generate_answer_run. simpl.
  destruct (snd (generate_content B (n_gen w))) as [e|] eqn:He.
  - destruct (is_ServiceUnavailable e) eqn:Hsu.
    + unfold bind at 1, log at 1, emit at 1. simpl.
      destruct (attempt <? max_retries) eqn:Hlt.
      * unfold time_sleep. run.
        destruct (sleep_error retry_delay); run;
          unfold after_generations; simpl;
          rewrite <- !app_assoc; reflexivity.
      * unfold bind at 1.
        match goal with
        | |- context [delete_file B file_path uploaded_file ?w0] =>
            destruct (delete_file_run B file_path uploaded_file w0)
              as (evs & w' & Hrun & _);
            replace (after_generations _ 1 w) with w0;
            [rewrite Hrun |
             unfold after_generations; simpl; rewrite <- !app_assoc;
             reflexivity]
        end.
        run. reflexivity.
    + unfold bind at 1, log at 1, emit at 1. simpl.
      unfold bind at 1.
      match goal with
      | |- context [delete_file B file_path uploaded_file ?w0] =>
          destruct (delete_file_run B file_path uploaded_file w0)
            as (evs & w' & Hrun & _);
          replace (after_generations _ 1 w) with w0;
          [rewrite Hrun |
           unfold after_generations; simpl; rewrite <- !app_assoc;
           reflexivity]
      end.
      run. reflexivity.
  - run. unfold after_generations. simpl.
    rewrite <- !app_assoc. reflexivity.
Qed.

(** [j] overloaded attempts in a row, none of them the last one. *)
Lemma overloaded_prefix (j : nat) :
  sleep_error retry_delay = None ->
  forall (attempt : Z) (w : world),
    forallb (overloaded_at B) (seq (n_gen w) j) = true ->
    attempt + Z.of_nat j <= max_retries ->
    loop (range attempt (max_retries + 1)) w
    = loop (range (attempt + Z.of_nat j) (max_retries + 1))
        (after_generations
           (retries_events B model prompt uploaded_file max_retries
              retry_delay j attempt (n_gen w)) j w).
Proof.
  intros Hsleep.
  induction j as [|j IH]; intros attempt w Hall Hle.
  - simpl. now rewrite Z.add_0_r, after_generations_nil.
  - simpl in Hall. apply andb_prop in Hall as [Hnow Hlater].
    rewrite range_cons by lia. rewrite loop_cons.
    unfold overloaded_at in Hnow.
    destruct (snd (generate_content B (n_gen w))) as [e|] eqn:He;
      [|discriminate].
    rewrite Hnow, Hsleep.
    replace (attempt <? max_retries) with true
      by (symmetry; apply Z.ltb_lt; lia).
    rewrite IH; simpl; [| exact Hlater | lia].
    rewrite after_generations_twice.
    replace (attempt + 1 + Z.of_nat j) with (attempt + Z.of_nat (S j)) by lia.
    unfold retry_events, error_at. rewrite He. reflexivity.
Qed.

(** The three ways in which the loop ends. *)
Lemma loop_success (attempt : Z) (rest : list Z) (w : world) :
  snd (generate_content B (n_gen w)) = None ->
  loop (attempt :: rest) w
  = (Val (Some (file_path, uploaded_file,
                stream_loop "" (fst (generate_content B (n_gen w))))),
     after_generations
       [EvLog INFO (LogAttempt attempt max_retries); request;
        EvLog INFO LogAnswerDone] 1 w).
Proof. intros Hok. now rewrite loop_cons, Hok. Qed.

Lemma loop_exhausted (attempt : Z) (rest : list Z) (w : world) :
  overloaded_at B (n_gen w) = true ->
  max_retries <= attempt ->
  exists evs w',
    loop (attempt :: rest) w
    = (Exc (RuntimeError MSG_OVERLOADED (error_at B (n_gen w))),
       after_generations [EvLog ERROR LogRetryExhausted] 0 w')
    /\ cleanup_effect B file_path uploaded_file
         (after_generations
            [EvLog INFO (LogAttempt attempt max_retries); request;
             EvLog WARNING (LogOverloaded (error_at B (n_gen w)))] 1 w)
         evs w'.
Proof.
  unfold overloaded_at, error_at. intros Hov Hle.
  rewrite loop_cons.
  destruct (snd (generate_content B (n_gen w))) as [e|]; [|discriminate].
  rewrite Hov.
  replace (attempt <? max_retries) with false
    by (symmetry; apply Z.ltb_ge; lia).
  match goal with
  | |- context [delete_file B file_path uploaded_file ?w0] =>
      destruct (delete_file_run B file_path uploaded_file w0)
        as (evs & w' & Hrun & Hce)
  end.
  exists evs, w'. rewrite Hrun. split; [reflexivity | exact Hce].
Qed.

Lemma loop_other_error (attempt : Z) (rest : list Z) (w : world) (e : exn) :
  snd (generate_content B (n_gen w)) = Some e ->
  is_ServiceUnavailable e = false ->
  exists evs w',
    loop (attempt :: rest) w = (Exc e, w')
    /\ cleanup_effect B file_path uploaded_file
         (after_generations
            [EvLog INFO (LogAttempt attempt max_retries); request;
             EvLog ERROR (LogUnknownError e)] 1 w)
         evs w'.
Proof.
  intros He Hsu. rewrite loop_cons, He, Hsu.
  match goal with
  | |- context [delete_file B file_path uploaded_file ?w0] =>
      destruct (delete_file_run B file_path uploaded_file w0)
        as (evs & w' & Hrun & Hce)
  end.
  exists evs, w'. rewrite Hrun. split; [reflexivity | exact Hce].
Qed.

Lemma retries_steps (j : nat) :
  forall (attempt : Z) (k : nat),
    List.filter is_retry_step
      (retries_events B model prompt uploaded_file max_retries retry_delay
         j attempt k)
    = alternate request (EvSleep retry_delay) j.
Proof.
  induction j as [|j IH]; intros attempt k; [reflexivity |].
  simpl. now rewrite IH.
Qed.

Lemma retries_no_deletion (j : nat) :
  forall (attempt : Z) (k : nat),
    List.filter is_deletion
      (retries_events B model prompt uploaded_file max_retries retry_delay
         j attempt k)
    = [].
Proof.
  induction j as [|j IH]; intros attempt k; [reflexivity |].
  simpl. now rewrite IH.
Qed.

Lemma retries_on_active (j : nat) :
  state uploaded_file = 2 ->
  forall (attempt : Z) (k : nat),
    Forall generate_on_active
      (retries_events B model prompt uploaded_file max_retries retry_delay
         j attempt k).
Proof.
  intros Hactive.
  induction j as [|j IH]; intros attempt k; [constructor |].
  simpl. repeat (constructor; simpl; try exact I; try exact Hactive).
  apply IH.
Qed.

(** C2.  The retry policy of the generation loop, for any number
    [max_retries >= 1] of attempts and any delay [time.sleep] accepts.  If
    every attempt ends with the overloaded
    error, the loop makes exactly [max_retries] requests with a sleep of
    [retry_delay] between consecutive ones and none after the last, then
    calls [delete_file] once and raises [RuntimeError], which is not the
    overloaded error itself but carries it as its cause; a file or asset is
    left only if its deletion failed.  If the [K]-th attempt is the first
    that is not overloaded and it succeeds, the loop returns its answer
    after exactly [K] requests and [K - 1] sleeps, and deletes nothing. *)
Theorem retry_policy (w : world) :
  1 <= max_retries ->
  0 <= retry_delay <= SLEEP_MAX ->
  let r := loop (range 1 (max_retries + 1)) w in
  let steps := List.filter is_retry_step (new_events w (snd r)) in
  (forallb (overloaded_at B) (seq (n_gen w) (Z.to_nat max_retries)) = true ->
   (exists e,
      fst r = Exc (RuntimeError MSG_OVERLOADED e)
      /\ is_ServiceUnavailable e = true
      /\ is_ServiceUnavailable (RuntimeError MSG_OVERLOADED e) = false)
   /\ steps
      = alternate request (EvSleep retry_delay) (Z.to_nat max_retries - 1)
        ++ [request; EvRemoteDelete (name uploaded_file)]
   /\ count is_exists (new_events w (snd r)) = 1%nat
   /\ (os_remove B (n_rm w) file_path = None -> file_path ∉ fs (snd r))
   /\ (remote_delete B (n_del w) (name uploaded_file) = None ->
       name uploaded_file ∉ remote (snd r)))
  /\
  (forall K : nat,
     (1 <= K)%nat ->
     Z.of_nat K <= max_retries ->
     forallb (overloaded_at B) (seq (n_gen w) (K - 1)) = true ->
     snd (generate_content B (n_gen w + (K - 1))) = None ->
     fst r
     = Val (Some (file_path, uploaded_file,
                  stream_loop ""
                    (fst (generate_content B (n_gen w + (K - 1))))))
     /\ steps = alternate request (EvSleep retry_delay) (K - 1) ++ [request]
     /\ List.filter is_deletion (new_events w (snd r)) = []).
Proof.
  intros Hmax Hdelay r steps.
  apply sleep_error_accepts in Hdelay. split.
  - intros Hall.
    destruct (Z.to_nat max_retries) as [|n] eqn:Hn; [lia |].
    rewrite seq_S, forallb_app in Hall.
    apply andb_prop in Hall as [Hfirst Hlast].
    simpl in Hlast. rewrite andb_true_r in Hlast.
    subst steps r.
    rewrite (overloaded_prefix n Hdelay 1 w Hfirst) by lia.
    replace (1 + Z.of_nat n) with max_retries by lia.
    rewrite range_cons, (range_nil (max_retries + 1)) by lia.
    match goal with
    | |- context [loop [max_retries] ?w0] =>
        destruct (loop_exhausted max_retries [] w0)
          as (evs & w' & Hrun & Hce);
        [simpl; now rewrite Nat.add_comm | lia |]
    end.
    rewrite Hrun. simpl fst. simpl snd.
    destruct Hce as [Htr _ Hex _ _ Hsteps _ _ _ _ _ Hfs Hrem _].
    simpl in Htr, Hfs, Hrem.
    assert (Hnew :
      trace (after_generations [EvLog ERROR LogRetryExhausted] 0 w')
      = trace w
        ++ (retries_events B model prompt uploaded_file max_retries
              retry_delay n 1 (n_gen w)
            ++ [EvLog INFO (LogAttempt max_retries max_retries); request;
                EvLog WARNING
                  (LogOverloaded (error_at B (n + n_gen w)))]
            ++ evs ++ [EvLog ERROR LogRetryExhausted])).
    { simpl. rewrite Htr. now rewrite <- !app_assoc. }
    rewrite (new_events_app _ _ _ Hnew).
    repeat split.
    + exists (error_at B (n + n_gen w)). split; [reflexivity |].
      unfold overloaded_at, error_at in *.
      rewrite Nat.add_comm in Hlast.
      destruct (snd (generate_content B (n + n_gen w))); [|discriminate].
      now split.
    + rewrite !List.filter_app, retries_steps, Hsteps. simpl.
      now rewrite Nat.sub_0_r.
    + rewrite !count_app, Hex. unfold count.
      assert (Hnone : forall j a k,
        List.filter is_exists
          (retries_events B model prompt uploaded_file max_retries
             retry_delay j a k) = []).
      { induction j as [|j IH]; intros a k; [reflexivity |].
        simpl. apply IH. }
      now rewrite Hnone.
    + exact Hfs.
    + exact Hrem.
  - intros K HK HKmax Hall Hok.
    destruct K as [|k]; [lia |].
    replace (S k - 1)%nat with k in * by lia.
    subst steps r.
    rewrite (overloaded_prefix k Hdelay 1 w Hall) by lia.
    rewrite range_cons by lia.
    rewrite loop_success by (simpl; now rewrite Nat.add_comm).
    simpl fst. simpl snd.
    assert (Hnew :
      trace
        (after_generations
           [EvLog INFO (LogAttempt (1 + Z.of_nat k) max_retries); request;
            EvLog INFO LogAnswerDone] 1
           (after_generations
              (retries_events B model prompt uploaded_file max_retries
                 retry_delay k 1 (n_gen w)) k w))
      = trace w
        ++ (retries_events B model prompt uploaded_file max_retries
              retry_delay k 1 (n_gen w)
            ++ [EvLog INFO (LogAttempt (1 + Z.of_nat k) max_retries);
                request; EvLog INFO LogAnswerDone])).
    { simpl. now rewrite <- !app_assoc. }
    rewrite (new_events_app _ _ _ Hnew).
    repeat split.
    + simpl. now rewrite (Nat.add_comm k).
    + now rewrite List.filter_app, retries_steps.
    + now rewrite List.filter_app, retries_no_deletion.
Qed.

(** Any run of the loop, over any list of attempt numbers. *)
Lemma loop_run (attempts : list Z) :
  forall w : world,
    exists pre post,
      loop_effect request max_retries retry_delay attempts w
        (loop attempts w) pre post.
Proof.
  induction attempts as [|attempt rest IH]; intros w.
  - exists [], []. split; simpl; try easy.
    now rewrite app_nil_r.
  - rewrite loop_cons.
    destruct (snd (generate_content B (n_gen w))) as [e|] eqn:He.
    + destruct (is_ServiceUnavailable e) eqn:Hsu.
      * destruct (attempt <? max_retries) eqn:Hlt;
          [destruct (sleep_error retry_delay) as [refusal|] eqn:Hsleep |].
        -- exists [EvLog INFO (LogAttempt attempt max_retries); request;
                   EvLog WARNING (LogOverloaded e);
                   EvStWarningRetry attempt max_retries;
                   EvSleep retry_delay], [].
           split; simpl.
           ++ reflexivity.
           ++ reflexivity.
           ++ reflexivity.
           ++ repeat (constructor; [simpl; easy |]). constructor.
           ++ reflexivity.
           ++ discriminate.
           ++ intros _. rewrite !count_cons. simpl. lia.
           ++ discriminate.
           ++ discriminate.
           ++ intros e' [= <-]. now right.
           ++ discriminate.
        -- match goal with
           | |- context [loop rest ?w0] =>
               destruct (IH w0) as (pre & post & Hle)
           end.
           destruct Hle.
           exists ([EvLog INFO (LogAttempt attempt max_retries); request;
                    EvLog WARNING (LogOverloaded e);
                    EvStWarningRetry attempt max_retries;
                    EvSleep retry_delay] ++ pre), post.
           split; simpl in *.
           ++ rewrite le_trace0. rewrite <- !app_assoc. reflexivity.
           ++ exact le_pre0.
           ++ exact le_post0.
           ++ repeat (constructor; [simpl; easy |]). exact le_same0.
           ++ exact le_globals0.
           ++ exact le_returns0.
           ++ intros _. rewrite !count_cons. simpl. lia.
           ++ discriminate.
           ++ intros Hv. constructor; [now apply Z.ltb_lt | auto].
           ++ exact le_raises0.
           ++ exact le_fuel0.
        -- match goal with
           | |- context [delete_file B file_path uploaded_file ?w0] =>
               destruct (delete_file_run B file_path uploaded_file w0)
                 as (evs & w' & Hrun & Hce)
           end.
           rewrite Hrun. destruct Hce. simpl in *.
           exists [EvLog INFO (LogAttempt attempt max_retries); request;
                   EvLog WARNING (LogOverloaded e)],
                  (evs ++ [EvLog ERROR LogRetryExhausted]).
           split; simpl.
           ++ rewrite ce_trace0. rewrite <- !app_assoc. reflexivity.
           ++ reflexivity.
           ++ now rewrite List.filter_app, ce_no_generate0.
           ++ repeat (constructor; [simpl; easy |]). constructor.
           ++ exact ce_globals0.
           ++ discriminate.
           ++ intros _. rewrite !count_cons. simpl. lia.
           ++ discriminate.
           ++ discriminate.
           ++ intros e' _. left. rewrite !count_app, ce_remote0, ce_exists0.
              now split.
           ++ discriminate.
      * match goal with
        | |- context [delete_file B file_path uploaded_file ?w0] =>
            destruct (delete_file_run B file_path uploaded_file w0)
              as (evs & w' & Hrun & Hce)
        end.
        rewrite Hrun. destruct Hce. simpl in *.
        exists [EvLog INFO (LogAttempt attempt max_retries); request;
                EvLog ERROR (LogUnknownError e)], evs.
        split; simpl.
        -- rewrite ce_trace0. rewrite <- !app_assoc. reflexivity.
        -- reflexivity.
        -- exact ce_no_generate0.
        -- repeat (constructor; [simpl; easy |]). constructor.
        -- exact ce_globals0.
        -- discriminate.
        -- intros _. rewrite !count_cons. simpl. lia.
        -- discriminate.
        -- discriminate.
        -- intros e' _. left. rewrite ce_remote0, ce_exists0. now split.
        -- discriminate.
    + exists [EvLog INFO (LogAttempt attempt max_retries); request;
              EvLog INFO LogAnswerDone], [].
      split; simpl; try easy.
      all: try (repeat (constructor; [simpl; easy |]); constructor).
      all: try (intros _; rewrite !count_cons; simpl; lia).
Qed.

(** C4.  A generation that ends with an error other than the overloaded one
    is not retried.  Whatever the number [K] of the failing attempt (the
    earlier ones having been overloaded and retried after a sleep of a
    length [time.sleep] accepts), the loop raises that
    very error, no request and no sleep follows the failing request, and
    [delete_file] runs right after the error is logged: its first call is
    the existence check of the local file, and a file or asset is left only
    if its deletion failed. *)
Theorem other_error_not_retried (w : world) (K : nat) (e : exn) :
  0 <= retry_delay <= SLEEP_MAX ->
  (1 <= K)%nat ->
  Z.of_nat K <= max_retries ->
  forallb (overloaded_at B) (seq (n_gen w) (K - 1)) = true ->
  snd (generate_content B (n_gen w + (K - 1))) = Some e ->
  is_ServiceUnavailable e = false ->
  let r := loop (range 1 (max_retries + 1)) w in
  fst r = Exc e
  /\ List.filter is_retry_step (new_events w (snd r))
     = alternate request (EvSleep retry_delay) (K - 1)
       ++ [request; EvRemoteDelete (name uploaded_file)]
  /\ (exists before cleanup,
        new_events w (snd r)
        = before ++ [request; EvLog ERROR (LogUnknownError e)] ++ cleanup
        /\ hd_error cleanup = Some (EvExists file_path)
        /\ List.filter is_retry_step cleanup
           = [EvRemoteDelete (name uploaded_file)])
  /\ (os_remove B (n_rm w) file_path = None -> file_path ∉ fs (snd r))
  /\ (remote_delete B (n_del w) (name uploaded_file) = None ->
      name uploaded_file ∉ remote (snd r)).
Proof.
  intros Hdelay HK HKmax Hall He Hsu r.
  apply sleep_error_accepts in Hdelay.
  destruct K as [|k]; [lia |].
  replace (S k - 1)%nat with k in * by lia.
  subst r.
  rewrite (overloaded_prefix k Hdelay 1 w Hall) by lia.
  rewrite range_cons by lia.
  match goal with
  | |- context [loop (?a :: ?rest) ?w0] =>
      destruct (loop_other_error a rest w0 e) as (evs & w' & Hrun & Hce);
      [simpl; now rewrite Nat.add_comm | exact Hsu |]
  end.
  rewrite Hrun. simpl fst. simpl snd.
  destruct Hce as [Htr Hfirst _ _ _ Hsteps _ _ _ _ _ Hfs Hrem _].
  simpl in Htr, Hfs, Hrem.
  assert (Hnew :
    trace w'
    = trace w
      ++ ((retries_events B model prompt uploaded_file max_retries
             retry_delay k 1 (n_gen w)
           ++ [EvLog INFO (LogAttempt (1 + Z.of_nat k) max_retries)])
          ++ [request; EvLog ERROR (LogUnknownError e)] ++ evs)).
  { rewrite Htr. now rewrite <- !app_assoc. }
  rewrite (new_events_app _ _ _ Hnew).
  repeat split.
  - rewrite !List.filter_app, retries_steps, Hsteps. simpl.
    now rewrite app_nil_r.
  - eexists _, evs. split; [reflexivity |]. now split.
  - exact Hfs.
  - exact Hrem.
Qed.

(** C10.  In any run of the generation loop the calls split in two: first
    the attempts, among which there is no deletion of either asset, then
    (on the two failing exits only) the deletions, after which no request
    is made.  So no deletion lies between two attempts, and every request
    carries the same uploaded asset. *)
Theorem no_deletion_between_attempts (w : world) :
  let r := loop (range 1 (max_retries + 1)) w in
  exists pre post,
    new_events w (snd r) = pre ++ post
    /\ List.filter is_deletion pre = []
    /\ List.filter is_generate post = []
    /\ Forall (fun ev => is_generate ev = true -> ev = request) pre
    /\ (forall v, fst r = Val v -> post = []).
Proof.
  intros r.
  destruct (loop_run (range 1 (max_retries + 1)) w) as (pre & post & Hle).
  exists pre, post. destruct Hle.
  repeat split; try assumption.
  now apply new_events_app.
Qed.

End Attempts.

(** ** The answer *)

(** C6.  The loop over the streamed responses joins the fragments in the
    order of arrival, adding and dropping nothing; so the answer returned by
    a successful generation (the [K]-th attempt, after [K - 1] overloaded
    ones, each followed by a sleep of a length [time.sleep] accepts) is the
    concatenation of that generation's fragments, and the
    three fragments of the example give the expected sentence. *)
Theorem answer_is_concatenation (B : backend) (model prompt file_path : string)
    (uploaded_file : file) (max_retries retry_delay : Z) (w : world) :
  (forall responses : list string,
     stream_loop "" responses = spec_concatenation responses)
  /\ (forall K : nat,
       0 <= retry_delay <= SLEEP_MAX ->
       (1 <= K)%nat ->
       Z.of_nat K <= max_retries ->
       forallb (overloaded_at B) (seq (n_gen w) (K - 1)) = true ->
       snd (generate_content B (n_gen w + (K - 1))) = None ->
       fst (attempts_loop B model prompt file_path uploaded_file
              max_retries retry_delay (range 1 (max_retries + 1)) w)
       = Val (Some (file_path, uploaded_file,
                    spec_concatenation
                      (fst (generate_content B (n_gen w + (K - 1)))))))
  /\ stream_loop "" ["Hello, "; "world"; "!"] = "Hello, world!".
Proof.
  assert (Hjoin : forall responses : list string,
            stream_loop "" responses = spec_concatenation responses).
  { intros responses. now rewrite stream_loop_from. }
  split; [exact Hjoin |]. split; [| reflexivity].
  intros K Hdelay HK HKmax Hall Hok.
  apply sleep_error_accepts in Hdelay.
  destruct K as [|k]; [lia |].
  replace (S k - 1)%nat with k in * by lia.
  rewrite (overloaded_prefix B model prompt file_path uploaded_file
             max_retries retry_delay k Hdelay 1 w Hall) by lia.
  rewrite range_cons by lia.
  rewrite loop_success by (simpl; now rewrite Nat.add_comm).
  simpl. now rewrite Hjoin, (Nat.add_comm k).
Qed.

(** ** Cleanup *)

Lemma remote_deletes_among_steps (evs : list event) :
  List.filter is_remote_delete (List.filter is_retry_step evs)
  = List.filter is_remote_delete evs.
Proof.
  induction evs as [|ev evs IH]; [reflexivity |].
  destruct ev; simpl; now rewrite ?IH.
Qed.

(** C5.  [delete_file] returns normally whatever the two deletions do.  It
    starts with the existence check of the local file and calls [os.remove]
    only if the file is there; it calls [uploaded_file.delete()] exactly
    once, whether or not the local deletion failed; and when the local file
    is absent the disk is left as it was. *)
Theorem delete_file_never_raises (B : backend) (file_path : string)
    (uploaded_file : file) (w : world) :
  let r := delete_file B file_path uploaded_file w in
  let evs := new_events w (snd r) in
  fst r = Val tt
  /\ hd_error evs = Some (EvExists file_path)
  /\ count is_exists evs = 1%nat
  /\ count is_remove evs
     = (if bool_decide (file_path ∈ fs w) then 1 else 0)%nat
  /\ List.filter is_remote_delete evs = [EvRemoteDelete (name uploaded_file)]
  /\ (file_path ∉ fs w -> fs (snd r) = fs w)
  /\ (os_remove B (n_rm w) file_path = None -> file_path ∉ fs (snd r))
  /\ (remote_delete B (n_del w) (name uploaded_file) = None ->
      name uploaded_file ∉ remote (snd r)).
Proof.
  intros r evs. subst r evs.
  destruct (delete_file_run B file_path uploaded_file w)
    as (evs & w' & Hrun & Hce).
  rewrite Hrun. simpl fst. simpl snd. destruct Hce.
  rewrite (new_events_app _ _ _ ce_trace0).
  repeat split; try assumption.
  now rewrite <- remote_deletes_among_steps, ce_steps0.
Qed.

(** ** Quiet computations *)

Lemma Quiet_ret {A : Type} (a : A) : Quiet (ret a).
Proof. intros w. exists []. split; simpl; auto using app_nil_r. Qed.

Lemma Quiet_raise {A : Type} (e : exn) : Quiet (@raise A e).
Proof. intros w. exists []. split; simpl; auto using app_nil_r. Qed.

Lemma Quiet_out_of_fuel {A : Type} : Quiet (@out_of_fuel A).
Proof. intros w. exists []. split; simpl; auto using app_nil_r. Qed.

Lemma Quiet_emit (ev : event) :
  is_generate ev = false -> is_deletion ev = false -> Quiet (emit ev).
Proof.
  intros Hg Hd w. exists [ev]. split; simpl; auto.
  - now rewrite Hg.
  - now rewrite Hd.
Qed.

Lemma Quiet_log (lvl : level) (m : logmsg) : Quiet (log lvl m).
Proof. now apply Quiet_emit. Qed.

Lemma Quiet_set_fs (f : gset string -> gset string) : Quiet (set_fs f).
Proof. intros w. exists []. split; simpl; auto using app_nil_r. Qed.

Lemma Quiet_set_remote (f : gset string -> gset string) :
  Quiet (set_remote f).
Proof. intros w. exists []. split; simpl; auto using app_nil_r. Qed.

Lemma Quiet_tick_time : Quiet tick_time.
Proof. intros w. exists []. split; simpl; auto using app_nil_r. Qed.

Lemma Quiet_tick_get : Quiet tick_get.
Proof. intros w. exists []. split; simpl; auto using app_nil_r. Qed.

Lemma Quiet_of_sum {A : Type} (r : exn + A) : Quiet (of_sum r).
Proof. destruct r; [apply Quiet_raise | apply Quiet_ret]. Qed.

Lemma Quiet_of_failure (r : option exn) : Quiet (of_failure r).
Proof. destruct r; [apply Quiet_raise | apply Quiet_ret]. Qed.

Lemma Quiet_bind {A C : Type} (m : M A) (k : A -> M C) :
  Quiet m -> (forall a, Quiet (k a)) -> Quiet (bind m k).
Proof.
  intros Hm Hk w. unfold bind.
  destruct (Hm w) as (evs1 & [Ht1 Hg1 Hd1 Hgl1]).
  destruct (m w) as [[a| e |] w1]; simpl in *.
  - destruct (Hk a w1) as (evs2 & [Ht2 Hg2 Hd2 Hgl2]).
    exists (evs1 ++ evs2). split.
    + rewrite Ht2, Ht1. now rewrite app_assoc.
    + now rewrite List.filter_app, Hg1, Hg2.
    + now rewrite List.filter_app, Hd1, Hd2.
    + congruence.
  - exists evs1. now split.
  - exists evs1. now split.
Qed.

Lemma Quiet_try_except {A : Type} (body : M A) (handler : exn -> M A) :
  Quiet body -> (forall e, Quiet (handler e)) -> Quiet (try_except body handler).
Proof.
  intros Hm Hk w. unfold try_except.
  destruct (Hm w) as (evs1 & [Ht1 Hg1 Hd1 Hgl1]).
  destruct (body w) as [[a| e |] w1]; simpl in *.
  - exists evs1. now split.
  - destruct (Hk e w1) as (evs2 & [Ht2 Hg2 Hd2 Hgl2]).
    exists (evs1 ++ evs2). split.
    + rewrite Ht2, Ht1. now rewrite app_assoc.
    + now rewrite List.filter_app, Hg1, Hg2.
    + now rewrite List.filter_app, Hd1, Hd2.
    + congruence.
  - exists evs1. now split.
Qed.

Create HintDb quiet.
#[local] Hint Resolve Quiet_ret Quiet_raise Quiet_out_of_fuel Quiet_log
  Quiet_set_fs Quiet_set_remote Quiet_tick_time Quiet_tick_get
  Quiet_of_sum Quiet_of_failure : quiet.

Ltac quiet :=
  repeat first
    [ solve [auto with quiet]
    | apply Quiet_emit; reflexivity
    | apply Quiet_bind; [| intros ?]
    | apply Quiet_try_except; [| intros ?]
    | match goal with
      | |- Quiet (match ?x with _ => _ end) => destruct x
      | |- Quiet (if ?x then _ else _) => destruct x
      end ].

Lemma Quiet_time (B : backend) : Quiet (time B).
Proof. unfold time. quiet. Qed.

Lemma Quiet_download_youtube (B : backend) (url : string) :
  Quiet (download_youtube B url).
Proof. unfold download_youtube, stream_download. quiet. Qed.

Lemma Quiet_genai_upload_file (B : backend) (file_path : string) :
  Quiet (genai_upload_file B file_path).
Proof. unfold genai_upload_file. quiet. Qed.

Lemma Quiet_genai_get_file (B : backend) (nm : string) :
  Quiet (genai_get_file B nm).
Proof. unfold genai_get_file. quiet. Qed.

#[local] Hint Resolve Quiet_time Quiet_download_youtube
  Quiet_genai_upload_file Quiet_genai_get_file : quiet.

Lemma Quiet_wait_loop (B : backend) (start_time : Q) (timeout interval : Z)
    (fuel : nat) :
  forall uploaded_file : file,
    Quiet (wait_loop B fuel start_time timeout interval uploaded_file).
Proof.
  induction fuel as [|fuel IH]; intros uploaded_file; simpl.
  - quiet.
  - destruct (negb (state uploaded_file =? 2)); [| quiet].
    apply Quiet_bind; [quiet | intros now].
    destruct (Qlt_le_dec _ _); [quiet |].
    apply Quiet_bind; [quiet | intros _].
    apply Quiet_bind; [quiet | intros f]. apply IH.
Qed.

Lemma Quiet_wait_for_file_active (B : backend) (fuel : nat)
    (uploaded_file : file) (timeout interval : Z) :
  Quiet (wait_for_file_active B fuel uploaded_file timeout interval).
Proof.
  unfold wait_for_file_active.
  apply Quiet_bind; [quiet | intros _].
  apply Quiet_bind; [quiet | intros start_time].
  apply Quiet_bind; [apply Quiet_wait_loop | intros f]. quiet.
Qed.

#[local] Hint Resolve Quiet_wait_for_file_active : quiet.

Lemma Quiet_upload_stage (B : backend) (fuel : nat) (url : string) :
  Quiet (upload_stage B fuel url).
Proof. unfold upload_stage. quiet. Qed.

(** ** The polling loop *)

Section Polling.

Variable B : backend.
Variables timeout interval : Z.
Variable start_time : Q.

(** The sleep between two polls is one [time.sleep] accepts. *)
Hypothesis interval_accepted : sleep_error interval = None.

(** [elapsed > timeout] at a reading of the clock *)
Let late (k : nat) : bool :=
  if Qlt_le_dec (inject_Z timeout) (float_sub B (time_time B k) start_time)
  then true else false.

Lemma file_eta (f : file) : File (name f) (state f) = f.
Proof. now destruct f. Qed.

(** One round: the asset is not active, the time is not up, the poll
    answers. *)
Lemma wait_loop_round (fuel : nat) (uploaded_file : file) (w : world)
    (polled : file) :
  state uploaded_file <> 2 ->
  late (n_time w) = false ->
  get_file B (n_get w) (name uploaded_file) = inr polled ->
  wait_loop B (S fuel) start_time timeout interval uploaded_file w
  = wait_loop B fuel start_time timeout interval polled
      (after_polls (poll_events interval (name uploaded_file)) 1 w).
Proof.
  intros Hst Hlate Hget. simpl.
  apply Z.eqb_neq in Hst. rewrite Hst. simpl.
  unfold late in Hlate. unfold time. run.
  destruct (Qlt_le_dec _ _); [discriminate |].
  unfold time_sleep, genai_get_file. run.
  rewrite interval_accepted. run. rewrite Hget. run.
  unfold after_polls, poll_events. simpl.
  rewrite <- !app_assoc. reflexivity.
Qed.

(** [k] rounds in a row. *)
Lemma wait_loop_rounds (k : nat) :
  forall (fuel : nat) (uploaded_file : file) (w : world),
    (forall i, (i < k)%nat ->
       pending_at B (n_get w) uploaded_file i = true) ->
    (forall i, (i < k)%nat -> late (n_time w + i) = false) ->
    forall f, seen_file B (n_get w) uploaded_file k = Some f ->
    wait_loop B (k + fuel) start_time timeout interval uploaded_file w
    = wait_loop B fuel start_time timeout interval f
        (after_polls
           (polls_events interval
              (polled_names B (n_get w) uploaded_file k)) k w).
Proof.
  induction k as [|k IH]; intros fuel uploaded_file w Hpend Hlate f Hf.
  - simpl in Hf. inversion Hf; subst.
    simpl. now rewrite after_polls_nil.
  - simpl in Hf.
    destruct (get_file B (n_get w) (name uploaded_file)) as [e|polled]
      eqn:Hget; [discriminate |].
    assert (Hnow : state uploaded_file <> 2).
    { specialize (Hpend 0%nat ltac:(lia)).
      unfold pending_at, seen_state in Hpend.
      simpl in Hpend. apply negb_true_iff in Hpend.
      now apply Z.eqb_neq. }
    change (S k + fuel)%nat with (S (k + fuel)).
    rewrite (wait_loop_round _ _ _ polled Hnow); [| | exact Hget].
    2:{ specialize (Hlate 0%nat ltac:(lia)). now rewrite Nat.add_0_r in Hlate. }
    rewrite (IH fuel polled _) with (f := f).
    + simpl n_get. simpl polled_names. rewrite Hget.
      rewrite after_polls_twice. reflexivity.
    + intros i Hi. simpl n_get.
      specialize (Hpend (S i) ltac:(lia)).
      unfold pending_at, seen_state in *. simpl in Hpend.
      now rewrite Hget in Hpend.
    + intros i Hi. simpl n_time.
      replace (S (n_time w) + i)%nat with (n_time w + S i)%nat by lia.
      apply Hlate. lia.
    + exact Hf.
Qed.

Lemma polled_names_length (k : nat) :
  forall (g0 : nat) (uploaded_file f : file),
    seen_file B g0 uploaded_file k = Some f ->
    length (polled_names B g0 uploaded_file k) = k.
Proof.
  induction k as [|k IH]; intros g0 uploaded_file f Hf; [reflexivity |].
  simpl in *.
  destruct (get_file B g0 (name uploaded_file)) as [e|polled];
    [discriminate |].
  f_equal. now apply (IH _ _ f).
Qed.

Lemma polls_sleeps (names : list string) :
  List.filter is_sleep (polls_events interval names)
  = repeat (EvSleep interval) (length names).
Proof.
  induction names as [|nm names IH]; simpl; [reflexivity | now rewrite IH].
Qed.

Lemma polls_get_files (names : list string) :
  List.filter is_get_file (polls_events interval names)
  = map EvGetFile names.
Proof.
  induction names as [|nm names IH]; simpl; [reflexivity | now rewrite IH].
Qed.

End Polling.

(** [wait_for_file_active], reduced to its loop. *)
Lemma wait_for_file_active_unfold (B : backend) (fuel : nat)
    (uploaded_file : file) (timeout interval : Z) (w : world) :
  wait_for_file_active B fuel uploaded_file timeout interval w
  = match
      wait_loop B fuel (time_time B (n_time w)) timeout interval
        uploaded_file
        (World (fs w) (remote w)
           (trace w ++ [EvLog INFO (LogWaitStart (name uploaded_file));
                        EvTime])
           (globals w) (S (n_time w)) (n_get w) (n_gen w) (n_rm w)
           (n_del w))
    with
    | (Val f, w') =>
        (Val f,
         World (fs w') (remote w') (trace w' ++ [EvLog INFO LogWaitDone])
           (globals w') (n_time w') (n_get w') (n_gen w') (n_rm w')
           (n_del w'))
    | (Exc e, w') => (Exc e, w')
    | (NoFuel, w') => (NoFuel, w')
    end.
Proof.
  unfold wait_for_file_active, time. run.
  rewrite <- !app_assoc. simpl.
  now destruct (wait_loop _ _ _ _ _ _ _) as [[f|e|] w'].
Qed.

(** C3.  [wait_for_file_active] with a poll interval [time.sleep] accepts,
    when the first [K] looks at the asset find it not active and the time
    not yet up, the time being what the script computes: the rounded
    difference of two readings of the clock.  If the next look finds the
    asset active, the function returns the object that look was at, in
    state [2], after exactly [K] polls, each preceded by a sleep of
    [interval] and each asking for the name of the object the previous poll
    returned; if the next look finds it still not active and the time up,
    the function raises [TimeoutError] after those same [K] polls.  A state
    [FAILED] counts as not active like any other: polling goes on. *)
Theorem activation_polling (B : backend) (uploaded_file : file)
    (timeout interval : Z) (fuel K : nat) (w : world) :
  let r := wait_for_file_active B fuel uploaded_file timeout interval w in
  let evs := new_events w (snd r) in
  0 <= interval <= SLEEP_MAX ->
  forallb (pending_at B (n_get w) uploaded_file) (seq 0 K) = true ->
  forallb (fun i => negb (timed_out_at B (n_time w) timeout i)) (seq 0 K)
  = true ->
  (active_at B (n_get w) uploaded_file K = true ->
   (K <= fuel)%nat ->
   (exists f,
      seen_file B (n_get w) uploaded_file K = Some f
      /\ fst r = Val f
      /\ state f = ACTIVE)
   /\ List.filter is_sleep evs = repeat (EvSleep interval) K
   /\ List.filter is_get_file evs
      = map EvGetFile (polled_names B (n_get w) uploaded_file K)
   /\ length (polled_names B (n_get w) uploaded_file K) = K)
  /\ (pending_at B (n_get w) uploaded_file K = true ->
      timed_out_at B (n_time w) timeout K = true ->
      (K < fuel)%nat ->
      fst r = Exc (TimeoutError MSG_TIMEOUT)
      /\ List.filter is_sleep evs = repeat (EvSleep interval) K
      /\ List.filter is_get_file evs
         = map EvGetFile (polled_names B (n_get w) uploaded_file K)
      /\ length (polled_names B (n_get w) uploaded_file K) = K)
  /\ (forall i,
        seen_state B (n_get w) uploaded_file i = Some FAILED ->
        pending_at B (n_get w) uploaded_file i = true).
Proof.
  intros r evs Hinterval Hpend Hearly.
  apply sleep_error_accepts in Hinterval.
  assert (Hp : forall i, (i < K)%nat ->
            pending_at B (n_get w) uploaded_file i = true).
  { intros i Hi. rewrite forallb_forall in Hpend. apply Hpend.
    apply in_seq. lia. }
  assert (Hl : forall i, (i < K)%nat ->
            (if Qlt_le_dec (inject_Z timeout)
                  (float_sub B (time_time B (S (n_time w) + i))
                     (time_time B (n_time w)))
             then true else false) = false).
  { intros i Hi. rewrite forallb_forall in Hearly.
    specialize (Hearly i). rewrite in_seq in Hearly.
    specialize (Hearly ltac:(lia)). apply negb_true_iff in Hearly.
    exact Hearly. }
  set (w1 := World (fs w) (remote w)
               (trace w ++ [EvLog INFO (LogWaitStart (name uploaded_file));
                            EvTime])
               (globals w) (S (n_time w)) (n_get w) (n_gen w) (n_rm w)
               (n_del w)).
  split; [| split].
  - intros Hact Hfuel. unfold active_at, seen_state in Hact.
    destruct (seen_file B (n_get w) uploaded_file K) as [f|] eqn:Hf;
      [| discriminate].
    apply Z.eqb_eq in Hact.
    subst evs r. rewrite wait_for_file_active_unfold. fold w1.
    replace fuel with (K + (fuel - K))%nat by lia.
    rewrite (wait_loop_rounds B timeout interval (time_time B (n_time w))
               Hinterval K (fuel - K) uploaded_file w1 Hp Hl f Hf).
    assert (Hdone : forall f0 f1 w0, state f1 = 2 ->
              wait_loop B f0 (time_time B (n_time w)) timeout interval f1 w0
              = (Val f1, w0)).
    { intros f0 f1 w0 Hf1. destruct f0; simpl; now rewrite Hf1. }
    rewrite Hdone by exact Hact. simpl fst. simpl snd.
    split; [exists f; now repeat split |].
    rewrite (new_events_app w _
               ([EvLog INFO (LogWaitStart (name uploaded_file)); EvTime]
                ++ polls_events interval
                     (polled_names B (n_get w) uploaded_file K)
                ++ [EvLog INFO LogWaitDone]))
      by (simpl; now rewrite <- !app_assoc).
    rewrite !List.filter_app, polls_sleeps, polls_get_files.
    rewrite (polled_names_length B K _ _ f Hf). simpl.
    now rewrite !app_nil_r.
  - intros Hstill Hlate Hfuel. unfold pending_at, seen_state in Hstill.
    destruct (seen_file B (n_get w) uploaded_file K) as [f|] eqn:Hf;
      [| discriminate].
    apply negb_true_iff in Hstill.
    subst evs r. rewrite wait_for_file_active_unfold. fold w1.
    replace fuel with (K + S (fuel - S K))%nat by lia.
    rewrite (wait_loop_rounds B timeout interval (time_time B (n_time w))
               Hinterval K (S (fuel - S K)) uploaded_file w1 Hp Hl f Hf).
    simpl wait_loop. rewrite Hstill. simpl negb. cbv iota.
    unfold time. run.
    unfold timed_out_at, elapsed_at in Hlate.
    replace (K + S (n_time w))%nat with (S (n_time w) + K)%nat by lia.
    destruct (Qlt_le_dec _ _); [| discriminate].
    run. split; [reflexivity |].
    rewrite (new_events_app w _
               ([EvLog INFO (LogWaitStart (name uploaded_file)); EvTime]
                ++ polls_events interval
                     (polled_names B (n_get w) uploaded_file K)
                ++ [EvTime; EvLog ERROR LogWaitTimeout]))
      by (simpl; now rewrite <- !app_assoc).
    rewrite !List.filter_app, polls_sleeps, polls_get_files.
    rewrite (polled_names_length B K _ _ f Hf). simpl.
    now rewrite !app_nil_r.
  - intros i Hi. unfold pending_at. now rewrite Hi.
Qed.

(** ** The stages before the generation loop *)

Lemma wait_loop_returns_active (B : backend) (start_time : Q)
    (timeout interval : Z) (fuel : nat) :
  forall (uploaded_file : file) (w : world) (f : file) (w' : world),
    wait_loop B fuel start_time timeout interval uploaded_file w
    = (Val f, w') ->
    state f = 2.
Proof.
  induction fuel as [|fuel IH]; intros uploaded_file w f w'; simpl.
  - destruct (state uploaded_file =? 2) eqn:Hst; simpl.
    + intros H. inversion H; subst. now apply Z.eqb_eq.
    + discriminate.
  - destruct (state uploaded_file =? 2) eqn:Hst; simpl.
    + intros H. inversion H; subst. now apply Z.eqb_eq.
    + unfold time. run.
      destruct (Qlt_le_dec _ _); run; [discriminate |].
      unfold time_sleep, genai_get_file. run.
      destruct (sleep_error interval); run; [discriminate |].
      destruct (get_file B (n_get w) (name uploaded_file)); run;
        [discriminate |].
      apply IH.
Qed.

(** [wait_for_file_active]: quiet, and when it returns, the asset it returns
    is in state [2] and the last call is the log of the activation. *)
Lemma wait_for_file_active_run (B : backend) (fuel : nat)
    (uploaded_file : file) (timeout interval : Z) (w : world) :
  exists evs,
    quiet_effect w
      (wait_for_file_active B fuel uploaded_file timeout interval w) evs
    /\ (forall f,
          fst (wait_for_file_active B fuel uploaded_file timeout interval w)
          = Val f ->
          state f = 2
          /\ exists evs', evs = evs' ++ [EvLog INFO LogWaitDone]).
Proof.
  rewrite wait_for_file_active_unfold.
  match goal with
  | |- context [wait_loop B fuel ?st timeout interval uploaded_file ?w1] =>
      destruct (Quiet_wait_loop B st timeout interval fuel uploaded_file w1)
        as (evs & [Ht Hg Hd Hgl]);
      pose proof (wait_loop_returns_active B st timeout interval fuel
                    uploaded_file w1) as Hact;
      destruct (wait_loop B fuel st timeout interval uploaded_file w1)
        as [[f|e|] w']
  end; simpl in *.
  - exists ([EvLog INFO (LogWaitStart (name uploaded_file)); EvTime]
            ++ evs ++ [EvLog INFO LogWaitDone]).
    split.
    + split; simpl.
      * rewrite Ht. now rewrite <- !app_assoc.
      * now rewrite List.filter_app, Hg.
      * now rewrite List.filter_app, Hd.
      * exact Hgl.
    + intros f0 Hf0. inversion Hf0; subst. split.
      * now apply (Hact f0 w').
      * exists ([EvLog INFO (LogWaitStart (name uploaded_file)); EvTime]
                ++ evs).
        now rewrite <- app_assoc.
  - exists ([EvLog INFO (LogWaitStart (name uploaded_file)); EvTime] ++ evs).
    split; [| discriminate].
    split; simpl; try assumption.
    rewrite Ht. now rewrite <- !app_assoc.
  - exists ([EvLog INFO (LogWaitStart (name uploaded_file)); EvTime] ++ evs).
    split; [| discriminate].
    split; simpl; try assumption.
    rewrite Ht. now rewrite <- !app_assoc.
Qed.

(** The stages before the loop: quiet, and when they succeed the asset
    handed to the loop is in state [2] and the last call is the log of the
    activation. *)
Lemma upload_stage_run (B : backend) (fuel : nat) (url : string) (w : world) :
  exists stage,
    quiet_effect w (upload_stage B fuel url w) stage
    /\ (forall file_path uploaded_file,
          fst (upload_stage B fuel url w) = Val (file_path, uploaded_file) ->
          state uploaded_file = 2
          /\ exists stage', stage = stage' ++ [EvLog INFO LogWaitDone]).
Proof.
  set (w0 := World (fs w) (remote w)
               (trace w ++ [EvLog INFO LogAnalysisStart]) (globals w)
               (n_time w) (n_get w) (n_gen w) (n_rm w) (n_del w)).
  assert (Hr :
    upload_stage B fuel url w
    = match download_youtube B url w0 with
      | (Val file_path, w1) =>
          match genai_upload_file B file_path w1 with
          | (Val uf, w2) =>
              match wait_for_file_active B fuel uf 300 1 w2 with
              | (Val f, w3) => (Val (file_path, f), w3)
              | (Exc e, w3) => (Exc e, w3)
              | (NoFuel, w3) => (NoFuel, w3)
              end
          | (Exc e, w2) => (Exc e, w2)
          | (NoFuel, w2) => (NoFuel, w2)
          end
      | (Exc e, w1) => (Exc e, w1)
      | (NoFuel, w1) => (NoFuel, w1)
      end) by reflexivity.
  rewrite Hr. clear Hr.
  destruct (Quiet_download_youtube B url w0) as (ev1 & [Ht1 Hg1 Hd1 Hgl1]).
  destruct (download_youtube B url w0) as [[file_path|e|] w1]; simpl in *.
  - destruct (Quiet_genai_upload_file B file_path w1)
      as (ev2 & [Ht2 Hg2 Hd2 Hgl2]).
    destruct (genai_upload_file B file_path w1) as [[uf|e|] w2]; simpl in *.
    + destruct (wait_for_file_active_run B fuel uf 300 1 w2)
        as (ev3 & [Ht3 Hg3 Hd3 Hgl3] & Hret).
      destruct (wait_for_file_active B fuel uf 300 1 w2) as [[f|e|] w3];
        simpl in *;
        (exists ([EvLog INFO LogAnalysisStart] ++ ev1 ++ ev2 ++ ev3));
        (split;
         [ split; simpl;
           [ rewrite Ht3, Ht2, Ht1; now rewrite <- !app_assoc
           | now rewrite !List.filter_app, Hg1, Hg2, Hg3
           | now rewrite !List.filter_app, Hd1, Hd2, Hd3
           | congruence ]
         | try discriminate ]).
      intros fp uf0 Heq. inversion Heq; subst.
      destruct (Hret uf0 eq_refl) as (Hst & evs' & Hev).
      split; [exact Hst |].
      exists ([EvLog INFO LogAnalysisStart] ++ ev1 ++ ev2 ++ evs').
      rewrite Hev. now rewrite <- !app_assoc.
    + exists ([EvLog INFO LogAnalysisStart] ++ ev1 ++ ev2).
      split; [| discriminate].
      split; simpl.
      * rewrite Ht2, Ht1. now rewrite <- !app_assoc.
      * now rewrite !List.filter_app, Hg1, Hg2.
      * now rewrite !List.filter_app, Hd1, Hd2.
      * congruence.
    + exists ([EvLog INFO LogAnalysisStart] ++ ev1 ++ ev2).
      split; [| discriminate].
      split; simpl.
      * rewrite Ht2, Ht1. now rewrite <- !app_assoc.
      * now rewrite !List.filter_app, Hg1, Hg2.
      * now rewrite !List.filter_app, Hd1, Hd2.
      * congruence.
  - exists ([EvLog INFO LogAnalysisStart] ++ ev1).
    split; [| discriminate].
    split; simpl; try assumption.
    rewrite Ht1. now rewrite <- !app_assoc.
  - exists ([EvLog INFO LogAnalysisStart] ++ ev1).
    split; [| discriminate].
    split; simpl; try assumption.
    rewrite Ht1. now rewrite <- !app_assoc.
Qed.

(** [recog_video] is its stages followed by the loop. *)
Lemma recog_video_split (B : backend) (fuel : nat) (prompt url model : string)
    (max_retries retry_delay : Z) (w : world) :
  recog_video B fuel prompt url model max_retries retry_delay w
  = match upload_stage B fuel url w with
    | (Val (file_path, uploaded_file), w1) =>
        attempts_loop B model prompt file_path uploaded_file max_retries
          retry_delay (range 1 (max_retries + 1)) w1
    | (Exc e, w1) => (Exc e, w1)
    | (NoFuel, w1) => (NoFuel, w1)
    end.
Proof.
  unfold recog_video, upload_stage.
  unfold bind, log, emit, ret.
  destruct (download_youtube B url _) as [[file_path|e|] w1]; try reflexivity.
  destruct (genai_upload_file B file_path w1) as [[uf|e|] w2];
    try reflexivity.
  now destruct (wait_for_file_active B fuel uf 300 1 w2) as [[f|e|] w3].
Qed.

(** ** A run of [recog_video] *)

Lemma no_deletion_no_cleanup (evs : list event) :
  List.filter is_deletion evs = [] -> cleanup_calls evs = 0%nat.
Proof.
  unfold cleanup_calls, count.
  induction evs as [|ev evs IH]; [reflexivity |].
  destruct ev; simpl; try discriminate; exact IH.
Qed.

Lemma no_generate_on_active (evs : list event) :
  List.filter is_generate evs = [] -> Forall generate_on_active evs.
Proof.
  induction evs as [|ev evs IH]; [constructor |].
  destruct ev; simpl; try discriminate; intros H;
    (constructor; [exact I | exact (IH H)]).
Qed.

Lemma no_generate_requests_model (model : string) (evs : list event) :
  List.filter is_generate evs = [] -> Forall (requests_model model) evs.
Proof.
  induction evs as [|ev evs IH]; [constructor |].
  destruct ev; simpl; try discriminate; intros H;
    (constructor; [exact I | exact (IH H)]).
Qed.

Lemma count_nonempty (p : event -> bool) (evs : list event) :
  (1 <= count p evs)%nat -> evs <> [].
Proof. destruct evs; [unfold count; simpl; lia | discriminate]. Qed.

Lemma recog_video_run (B : backend) (fuel : nat) (prompt url model : string)
    (max_retries retry_delay : Z) (w : world) :
  exists stage rest,
    pipeline_effect model retry_delay w
      (recog_video B fuel prompt url model max_retries retry_delay w)
      stage rest.
Proof.
  rewrite recog_video_split.
  destruct (upload_stage_run B fuel url w) as (stage & [Ht Hg Hd Hgl] & Hret).
  destruct (upload_stage B fuel url w) as [[[file_path uf]|e|] w1];
    simpl in *.
  - destruct (Hret file_path uf eq_refl) as (Hst & Hlast).
    destruct (loop_run B model prompt file_path uf max_retries retry_delay
                (range 1 (max_retries + 1)) w1) as (pre & post & Hle).
    destruct Hle.
    exists stage, (pre ++ post). split.
    + rewrite le_trace0, Ht. now rewrite <- !app_assoc.
    + congruence.
    + exact Hg.
    + exact Hd.
    + apply Forall_app. split.
      * eapply List.Forall_impl; [| exact le_same0].
        intros ev Hev. destruct ev; simpl; try exact I.
        specialize (Hev eq_refl). inversion Hev; subst. exact Hst.
      * now apply no_generate_on_active.
    + apply Forall_app. split.
      * eapply List.Forall_impl; [| exact le_same0].
        intros ev Hev. destruct ev; simpl; try exact I.
        specialize (Hev eq_refl). now inversion Hev.
      * now apply no_generate_requests_model.
    + intros _. exact Hlast.
    + intros Hne. rewrite count_app.
      destruct (range 1 (max_retries + 1)) as [|a l] eqn:Hrange.
      * destruct (le_empty0 eq_refl) as [-> ->]. now contradiction Hne.
      * specialize (le_started0 ltac:(discriminate)). lia.
    + intros v Hv. unfold cleanup_calls. rewrite count_app.
      rewrite (le_returns0 v Hv).
      fold (cleanup_calls pre). now rewrite no_deletion_no_cleanup.
    + intros Hsleep e He _. unfold cleanup_calls. rewrite count_app.
      destruct (le_raises0 e He) as [[Hone _] | [_ Hrefused]];
        [| congruence].
      rewrite Hone.
      fold (cleanup_calls pre). now rewrite no_deletion_no_cleanup.
    + intros Hnil v Hv.
      destruct (range 1 (max_retries + 1)) as [|a l] eqn:Hrange.
      * simpl in Hv. discriminate.
      * specialize (le_started0 ltac:(discriminate)).
        apply count_nonempty in le_started0.
        destruct pre; [now contradiction le_started0 | discriminate].
    + intros Hf. now contradiction le_fuel0.
  - exists stage, []. split; simpl; try easy.
    now rewrite app_nil_r.
  - exists stage, []. split; simpl; try easy.
    now rewrite app_nil_r.
Qed.

(** C8.  In any run of [recog_video] the calls split in two.  The first
    part, the download, upload and activation stages, holds no generation
    request.  The second part is empty unless [wait_for_file_active] has
    returned (the first part then ends with its closing log entry), and
    every request in it carries an asset whose observed state is [2]. *)
Theorem generate_only_on_active (B : backend) (fuel : nat)
    (prompt url model : string) (max_retries retry_delay : Z) (w : world) :
  let r := recog_video B fuel prompt url model max_retries retry_delay w in
  exists stage rest,
    new_events w (snd r) = stage ++ rest
    /\ List.filter is_generate stage = []
    /\ Forall generate_on_active rest
    /\ (rest <> [] ->
        exists stage', stage = stage' ++ [EvLog INFO LogWaitDone]).
Proof.
  intros r.
  destruct (recog_video_run B fuel prompt url model max_retries retry_delay w)
    as (stage & rest & Hpe).
  destruct Hpe. exists stage, rest.
  repeat split; try assumption.
  now apply new_events_app.
Qed.

(** ** The download *)

(** C7.  When the link is refused before the download starts (the video
    object cannot be built, the streams cannot be listed, or there is no
    stream to download), [download_youtube] raises that very error, makes
    no download call and leaves the disk as it was; [recog_video] then
    fails with the same error, without uploading anything. *)
Theorem download_failure_creates_no_file (B : backend) (url : string)
    (e : exn) (w : world) :
  refused_before_download B url = Some e ->
  (let r := download_youtube B url w in
   fst r = Exc e
   /\ fs (snd r) = fs w
   /\ List.filter is_download (new_events w (snd r)) = [])
  /\ (forall fuel prompt model max_retries retry_delay,
        let r :=
          recog_video B fuel prompt url model max_retries retry_delay w in
        fst r = Exc e
        /\ fs (snd r) = fs w
        /\ remote (snd r) = remote w
        /\ List.filter is_upload (new_events w (snd r)) = []).
Proof.
  unfold refused_before_download. intros Href.
  split.
  - unfold download_youtube. run.
    destruct (youtube B url) as [e0|] eqn:Hy; run.
    + inversion Href; subst. repeat split.
      rewrite (new_events_app w _
                 [EvLog INFO (LogDownloadTry url); EvYouTube url;
                  EvLog ERROR (LogDownloadFail e)]); [reflexivity |].
      simpl. now rewrite <- !app_assoc.
    + destruct (highest_resolution B url) as [e0|[|]] eqn:Hh; run;
        try discriminate; inversion Href; subst; repeat split.
      * rewrite (new_events_app w _
                   [EvLog INFO (LogDownloadTry url); EvYouTube url;
                    EvHighestResolution url;
                    EvLog ERROR (LogDownloadFail e)]); [reflexivity |].
        simpl. now rewrite <- !app_assoc.
      * rewrite (new_events_app w _
                   [EvLog INFO (LogDownloadTry url); EvYouTube url;
                    EvHighestResolution url;
                    EvLog ERROR
                      (LogDownloadFail (AttributeError MSG_NONE_DOWNLOAD))]);
          [reflexivity |].
        simpl. now rewrite <- !app_assoc.
  - intros fuel prompt model max_retries retry_delay.
    unfold recog_video, download_youtube. run.
    destruct (youtube B url) as [e0|] eqn:Hy; run.
    + inversion Href; subst. repeat split.
      rewrite (new_events_app w _
                 [EvLog INFO LogAnalysisStart;
                  EvLog INFO (LogDownloadTry url); EvYouTube url;
                  EvLog ERROR (LogDownloadFail e)]); [reflexivity |].
      simpl. now rewrite <- !app_assoc.
    + destruct (highest_resolution B url) as [e0|[|]] eqn:Hh; run;
        try discriminate; inversion Href; subst; repeat split.
      * rewrite (new_events_app w _
                   [EvLog INFO LogAnalysisStart;
                    EvLog INFO (LogDownloadTry url); EvYouTube url;
                    EvHighestResolution url;
                    EvLog ERROR (LogDownloadFail e)]); [reflexivity |].
        simpl. now rewrite <- !app_assoc.
      * rewrite (new_events_app w _
                   [EvLog INFO LogAnalysisStart;
                    EvLog INFO (LogDownloadTry url); EvYouTube url;
                    EvHighestResolution url;
                    EvLog ERROR
                      (LogDownloadFail (AttributeError MSG_NONE_DOWNLOAD))]);
          [reflexivity |].
        simpl. now rewrite <- !app_assoc.
Qed.

(** ** The button handler *)

Opaque recog_video delete_file.

(** A run of the handler, whatever [recog_video] does. *)
Lemma button_handler_run (B : backend) (fuel : nat)
    (environ : gmap string string) (prompt url : string) (w : world) :
  let model := getenv_default environ "GENAI_MODEL_NAME" "gemini-2.0-flash" in
  exists tail,
    handler_effect w
      (recog_video B fuel prompt url model 5 10 (handler_entry model w))
      (button_handler B fuel environ prompt url w) tail.
Proof.
  intros model. unfold button_handler. fold model.
  run. rewrite <- !app_assoc. simpl. fold (handler_entry model w).
  destruct (recog_video_run B fuel prompt url model 5 10
              (handler_entry model w)) as (stage & rest & Hpe).
  pose proof (pe_globals _ _ _ _ _ _ Hpe) as Hgl. simpl in Hgl. clear Hpe.
  destruct (recog_video B fuel prompt url model 5 10 (handler_entry model w))
    as [[[[[file_path uf] answer]|]|e|] w1]; simpl in *.
  - match goal with
    | |- context [delete_file B file_path uf ?w0] =>
        destruct (delete_file_run B file_path uf w0)
          as (cl & w2 & Hrun & Hce)
    end.
    rewrite Hrun. destruct Hce. simpl in *.
    assert (Hc : cleanup_calls
                   ([EvStVideo file_path; EvStMarkdown "box style";
                     EvStAnswer answer]
                    ++ cl ++ [EvLog INFO LogTempDeleted; EvStSuccess])
                 = 1%nat).
    { unfold cleanup_calls. now rewrite !count_app, ce_remote0. }
    exists ([EvStVideo file_path; EvStMarkdown "box style";
             EvStAnswer answer]
            ++ cl ++ [EvLog INFO LogTempDeleted; EvStSuccess]).
    split; simpl.
    + rewrite ce_trace0. now rewrite <- !app_assoc.
    + now rewrite List.filter_app, ce_no_generate0.
    + discriminate.
    + split; discriminate.
    + intros _ _. exact Hc.
    + intros Hno. now contradiction (Hno (file_path, uf, answer)).
    + intros Hno. now contradiction (Hno (file_path, uf, answer)).
  - unfold read_globals. simpl. rewrite Hgl.
    destruct (globals w) as [[[p f] a]|] eqn:Hg; simpl.
    + match goal with
      | |- context [delete_file B p f ?w0] =>
          destruct (delete_file_run B p f w0) as (cl & w2 & Hrun & Hce)
      end.
      rewrite Hrun. destruct Hce. simpl in *.
      assert (Hc : cleanup_calls
                     ([EvLog ERROR
                         (LogAnalysisError (TypeError MSG_UNPACK_NONE));
                       EvStErrorExn (TypeError MSG_UNPACK_NONE)]
                      ++ cl ++ [EvLog INFO LogTempDeleted; EvStSuccess])
                   = 1%nat).
      { unfold cleanup_calls. now rewrite !count_app, ce_remote0. }
      exists ([EvLog ERROR (LogAnalysisError (TypeError MSG_UNPACK_NONE));
               EvStErrorExn (TypeError MSG_UNPACK_NONE)]
              ++ cl ++ [EvLog INFO LogTempDeleted; EvStSuccess]).
      split; simpl.
      * rewrite ce_trace0. now rewrite <- !app_assoc.
      * now rewrite List.filter_app, ce_no_generate0.
      * discriminate.
      * split; discriminate.
      * discriminate.
      * intros _ Hnone. congruence.
      * intros _ _ _. exact Hc.
    + exists [EvLog ERROR (LogAnalysisError (TypeError MSG_UNPACK_NONE));
              EvStErrorExn (TypeError MSG_UNPACK_NONE);
              EvLog WARNING (LogTempDeleteError (NameError "file_path"))].
      split; simpl; try easy.
      now rewrite <- !app_assoc.
  - unfold read_globals. simpl. rewrite Hgl.
    destruct (globals w) as [[[p f] a]|] eqn:Hg; simpl.
    + match goal with
      | |- context [delete_file B p f ?w0] =>
          destruct (delete_file_run B p f w0) as (cl & w2 & Hrun & Hce)
      end.
      rewrite Hrun. destruct Hce. simpl in *.
      assert (Hc : cleanup_calls
                     ([EvLog ERROR (LogAnalysisError e); EvStErrorExn e]
                      ++ cl ++ [EvLog INFO LogTempDeleted; EvStSuccess])
                   = 1%nat).
      { unfold cleanup_calls. now rewrite !count_app, ce_remote0. }
      exists ([EvLog ERROR (LogAnalysisError e); EvStErrorExn e]
              ++ cl ++ [EvLog INFO LogTempDeleted; EvStSuccess]).
      split; simpl.
      * rewrite ce_trace0. now rewrite <- !app_assoc.
      * now rewrite List.filter_app, ce_no_generate0.
      * discriminate.
      * split; discriminate.
      * discriminate.
      * intros _ Hnone. congruence.
      * intros _ _ _. exact Hc.
    + exists [EvLog ERROR (LogAnalysisError e); EvStErrorExn e;
              EvLog WARNING (LogTempDeleteError (NameError "file_path"))].
      split; simpl; try easy.
      now rewrite <- !app_assoc.
  - exists []. split; simpl; try easy.
    now rewrite app_nil_r.
Qed.

Transparent recog_video delete_file.

(** ** Start-up and configuration *)

(** C9.  Without the variable [GENAI_API_KEY] a run of the script shows the
    error, logs it and stops: these are its only three calls, nothing of the
    pipeline runs, and disk and remote store are untouched.  Without the
    variable [GENAI_MODEL_NAME] the handler builds the model
    ["gemini-2.0-flash"] and addresses every generation request to it. *)
Theorem missing_key_stops_default_model (B : backend) (fuel : nat)
    (environ : gmap string string) (url prompt : string) (clicked : bool)
    (w : world) :
  (getenv environ "GENAI_API_KEY" = None ->
   let r := app B fuel environ url prompt clicked w in
   fst r = Val Stopped
   /\ new_events w (snd r)
      = [EvStError MSG_NO_KEY; EvLog ERROR LogNoApiKey; EvStStop]
   /\ fs (snd r) = fs w
   /\ remote (snd r) = remote w)
  /\ (getenv environ "GENAI_MODEL_NAME" = None ->
      let evs :=
        new_events w (snd (button_handler B fuel environ prompt url w)) in
      hd_error evs = Some (EvModel "gemini-2.0-flash")
      /\ Forall (requests_model "gemini-2.0-flash") evs).
Proof.
  split.
  - intros Hkey r. subst r. unfold app. rewrite Hkey. run.
    repeat split.
    apply new_events_app. simpl. now rewrite <- !app_assoc.
  - unfold getenv. intros Hmodel. cbv zeta.
    destruct (button_handler_run B fuel environ prompt url w) as (tail & Hhe).
    cbv zeta in Hhe. unfold getenv_default in Hhe. rewrite Hmodel in Hhe.
    destruct (recog_video_run B fuel prompt url "gemini-2.0-flash" 5 10
                (handler_entry "gemini-2.0-flash" w))
      as (stage & rest & Hpe).
    destruct Hhe, Hpe.
    assert (Hnew :
      trace (snd (button_handler B fuel environ prompt url w))
      = trace w
        ++ ([EvModel "gemini-2.0-flash"; EvStSpinner]
            ++ stage ++ rest ++ tail)).
    { rewrite he_trace0, pe_trace0. simpl. now rewrite <- !app_assoc. }
    rewrite (new_events_app _ _ _ Hnew). split; [reflexivity |].
    repeat (apply Forall_cons; split; [exact I |]).
    rewrite !Forall_app. repeat split.
    + now apply no_generate_requests_model.
    + exact pe_model0.
    + now apply no_generate_requests_model.
Qed.

(** ** Cleanup at the end of a run *)

(** C1.  Two runs of the script in which the pipeline fails before the
    generation stage.  In the first the uploaded asset never becomes active
    and [wait_for_file_active] times out; in the second the upload itself
    is refused.  In both the run ends normally, [delete_file] is never
    called (no existence check, no remote deletion), the downloaded file
    stays on disk, and the last call is the warning logged by the [finally]
    block for the unbound name [file_path].  In the first run the uploaded
    asset stays in the remote store as well. *)
Theorem cleanup_skipped_before_generation :
  let timed_out :=
    app never_active 1000 key_only video_url prompt_default true
      (init_world ∅) in
  let refused :=
    app upload_refused 1000 key_only video_url prompt_default true
      (init_world ∅) in
  (fst timed_out = Val Finished
   /\ cleanup_calls (trace (snd timed_out)) = 0%nat
   /\ count is_exists (trace (snd timed_out)) = 0%nat
   /\ count is_get_file (trace (snd timed_out)) = 300%nat
   /\ "./videos/v.mp4" ∈ fs (snd timed_out)
   /\ "files/abc" ∈ remote (snd timed_out)
   /\ last (trace (snd timed_out))
      = Some (EvLog WARNING (LogTempDeleteError (NameError "file_path"))))
  /\ (fst refused = Val Finished
      /\ cleanup_calls (trace (snd refused)) = 0%nat
      /\ count is_exists (trace (snd refused)) = 0%nat
      /\ "./videos/v.mp4" ∈ fs (snd refused)
      /\ last (trace (snd refused))
         = Some
             (EvLog WARNING (LogTempDeleteError (NameError "file_path")))).
Proof.
  intros timed_out refused. subst timed_out refused.
  repeat split;
    try (vm_compute; reflexivity);
    apply bool_decide_unpack; vm_compute; exact I.
Qed.

(** * Instances on the scenarios *)

Lemma retry_policy_witness :
  1 <= 5
  /\ 0 <= 10 <= SLEEP_MAX
  /\ forallb (overloaded_at always_overloaded) (seq 0 5) = true
  /\ (exists e,
        fst (attempts_loop always_overloaded "gemini-2.0-flash"
               prompt_default "./videos/v.mp4" (File "files/abc" ACTIVE)
               5 10 (range 1 (5 + 1)) (init_world ∅))
        = Exc (RuntimeError MSG_OVERLOADED e))
  /\ forallb (overloaded_at overloaded_twice) (seq 0 2) = true
  /\ fst (attempts_loop overloaded_twice "gemini-2.0-flash"
            prompt_default "./videos/v.mp4" (File "files/abc" ACTIVE)
            5 10 (range 1 (5 + 1)) (init_world ∅))
     = Val (Some ("./videos/v.mp4", File "files/abc" ACTIVE,
                  "Hello, world!")).
Proof.
  assert (H1 : 1 <= 5) by lia.
  assert (Hd : 0 <= 10 <= SLEEP_MAX) by (unfold SLEEP_MAX; lia).
  assert (H2 : forallb (overloaded_at always_overloaded) (seq 0 5) = true)
    by reflexivity.
  assert (H3 : forallb (overloaded_at overloaded_twice) (seq 0 2) = true)
    by reflexivity.
  pose proof (retry_policy always_overloaded "gemini-2.0-flash"
                prompt_default "./videos/v.mp4" (File "files/abc" ACTIVE)
                5 10 (init_world ∅) H1 Hd) as P.
  pose proof (retry_policy overloaded_twice "gemini-2.0-flash"
                prompt_default "./videos/v.mp4" (File "files/abc" ACTIVE)
                5 10 (init_world ∅) H1 Hd) as Q.
  cbv zeta in P, Q.
  destruct P as [P _]. destruct (P H2) as ((e & He & _) & _).
  destruct Q as [_ Q].
  destruct (Q 3%nat ltac:(lia) ltac:(lia) H3 eq_refl) as (Qv & _).
  split; [exact H1 |]. split; [exact Hd |]. split; [exact H2 |].
  split; [exists e; exact He |]. split; [exact H3 | exact Qv].
Defined.

Lemma activation_polling_witness :
  0 <= 1 <= SLEEP_MAX
  /\ forallb (pending_at calm 0 (File "files/abc" PROCESSING)) (seq 0 3) = true
  /\ active_at calm 0 (File "files/abc" PROCESSING) 3 = true
  /\ fst (wait_for_file_active calm 1000 (File "files/abc" PROCESSING)
            300 1 (init_world ∅))
     = Val (File "files/abc" ACTIVE)
  /\ forallb (pending_at never_active 0 (File "files/abc" PROCESSING))
       (seq 0 301) = true
  /\ timed_out_at never_active 0 300 300 = true
  /\ fst (wait_for_file_active never_active 1000
            (File "files/abc" PROCESSING) 300 1 (init_world ∅))
     = Exc (TimeoutError MSG_TIMEOUT).
Proof.
  assert (Hi : 0 <= 1 <= SLEEP_MAX) by (unfold SLEEP_MAX; lia).
  assert (H1 : forallb (pending_at calm 0 (File "files/abc" PROCESSING))
                 (seq 0 3) = true) by reflexivity.
  assert (H2 : forallb
                 (fun i => negb (timed_out_at calm 0 300 i)) (seq 0 3)
               = true) by reflexivity.
  assert (H3 : active_at calm 0 (File "files/abc" PROCESSING) 3 = true)
    by reflexivity.
  assert (H4 : forallb
                 (pending_at never_active 0 (File "files/abc" PROCESSING))
                 (seq 0 301) = true) by (vm_compute; reflexivity).
  assert (H4' : forallb
                  (pending_at never_active 0 (File "files/abc" PROCESSING))
                  (seq 0 300) = true) by (vm_compute; reflexivity).
  assert (H5 : forallb
                 (fun i => negb (timed_out_at never_active 0 300 i))
                 (seq 0 300) = true) by (vm_compute; reflexivity).
  assert (H6 : pending_at never_active 0 (File "files/abc" PROCESSING) 300
               = true) by (vm_compute; reflexivity).
  assert (H7 : timed_out_at never_active 0 300 300 = true)
    by (vm_compute; reflexivity).
  pose proof (activation_polling calm (File "files/abc" PROCESSING) 300 1
                1000 3 (init_world ∅) Hi H1 H2) as P.
  pose proof (activation_polling never_active (File "files/abc" PROCESSING)
                300 1 1000 300 (init_world ∅) Hi H4' H5) as Q.
  cbv zeta in P, Q.
  destruct P as [P _].
  destruct (P H3 ltac:(lia)) as ((f & Hseen & Pv & _) & _).
  assert (Hf : f = File "files/abc" ACTIVE)
    by (vm_compute in Hseen; injection Hseen as <-; reflexivity).
  rewrite Hf in Pv.
  destruct Q as [_ [Q _]]. destruct (Q H6 H7 ltac:(lia)) as (Qv & _).
  split; [exact Hi |]. split; [exact H1 |]. split; [exact H3 |].
  split; [exact Pv |]. split; [exact H4 |]. split; [exact H7 | exact Qv].
Defined.

Lemma other_error_not_retried_witness :
  0 <= 10 <= SLEEP_MAX
  /\ forallb (overloaded_at refused_second) (seq 0 1) = true
  /\ snd (generate_content refused_second 1)
     = Some (OtherException "InvalidArgument" "400")
  /\ fst (attempts_loop refused_second "gemini-2.0-flash" prompt_default
            "./videos/v.mp4" (File "files/abc" ACTIVE) 5 10
            (range 1 (5 + 1)) (init_world ∅))
     = Exc (OtherException "InvalidArgument" "400").
Proof.
  assert (Hd : 0 <= 10 <= SLEEP_MAX) by (unfold SLEEP_MAX; lia).
  assert (H1 : forallb (overloaded_at refused_second) (seq 0 1) = true)
    by reflexivity.
  assert (H2 : snd (generate_content refused_second 1)
               = Some (OtherException "InvalidArgument" "400"))
    by reflexivity.
  pose proof (other_error_not_retried refused_second "gemini-2.0-flash"
                prompt_default "./videos/v.mp4" (File "files/abc" ACTIVE)
                5 10 (init_world ∅) 2%nat
                (OtherException "InvalidArgument" "400")
                Hd ltac:(lia) ltac:(lia) H1 H2 eq_refl) as P.
  cbv zeta in P. destruct P as (Pv & _).
  split; [exact Hd |]. split; [exact H1 |]. split; [exact H2 | exact Pv].
Defined.

Lemma answer_is_concatenation_witness :
  0 <= 10 <= SLEEP_MAX
  /\ forallb (overloaded_at overloaded_twice) (seq 0 2) = true
  /\ snd (generate_content overloaded_twice 2) = None
  /\ fst (attempts_loop overloaded_twice "gemini-2.0-flash" prompt_default
            "./videos/v.mp4" (File "files/abc" ACTIVE) 5 10
            (range 1 (5 + 1)) (init_world ∅))
     = Val (Some ("./videos/v.mp4", File "files/abc" ACTIVE,
                  spec_concatenation ["Hello, "; "world"; "!"])).
Proof.
  assert (Hd : 0 <= 10 <= SLEEP_MAX) by (unfold SLEEP_MAX; lia).
  assert (H1 : forallb (overloaded_at overloaded_twice) (seq 0 2) = true)
    by reflexivity.
  assert (H2 : snd (generate_content overloaded_twice 2) = None)
    by reflexivity.
  pose proof (answer_is_concatenation overloaded_twice "gemini-2.0-flash"
                prompt_default "./videos/v.mp4" (File "files/abc" ACTIVE)
                5 10 (init_world ∅)) as P.
  destruct P as (_ & P & _).
  split; [exact Hd |]. split; [exact H1 |]. split; [exact H2 |].
  exact (P 3%nat Hd ltac:(lia) ltac:(lia) H1 H2).
Defined.

Lemma delete_file_never_raises_witness :
  fst (delete_file stubborn "./videos/v.mp4" (File "files/abc" ACTIVE)
         (init_world {["./videos/v.mp4"]}))
  = Val tt
  /\ ("./videos/v.mp4" ∉ fs (init_world ∅))
  /\ fs (snd (delete_file calm "./videos/v.mp4" (File "files/abc" ACTIVE)
                (init_world ∅)))
     = fs (init_world ∅).
Proof.
  pose proof (delete_file_never_raises stubborn "./videos/v.mp4"
                (File "files/abc" ACTIVE)
                (init_world {["./videos/v.mp4"]})) as P.
  pose proof (delete_file_never_raises calm "./videos/v.mp4"
                (File "files/abc" ACTIVE) (init_world ∅)) as Q.
  cbv zeta in P, Q.
  destruct P as (Pv & _). destruct Q as (_ & _ & _ & _ & _ & Q & _).
  assert (H : "./videos/v.mp4" ∉ fs (init_world ∅)).
  { simpl. apply not_elem_of_empty. }
  split; [exact Pv |]. split; [exact H | exact (Q H)].
Defined.

Lemma download_failure_creates_no_file_witness :
  refused_before_download bad_link video_url
  = Some (OtherException "RegexMatchError" "url")
  /\ fst (download_youtube bad_link video_url (init_world ∅))
     = Exc (OtherException "RegexMatchError" "url")
  /\ fs (snd (download_youtube bad_link video_url (init_world ∅)))
     = fs (init_world ∅).
Proof.
  assert (H : refused_before_download bad_link video_url
              = Some (OtherException "RegexMatchError" "url"))
    by reflexivity.
  pose proof (download_failure_creates_no_file bad_link video_url
                (OtherException "RegexMatchError" "url") (init_world ∅) H)
    as P.
  cbv zeta in P. destruct P as ((P1 & P2 & _) & _).
  repeat split; assumption.
Defined.

Lemma generate_only_on_active_witness :
  exists stage rest,
    new_events (init_world ∅)
      (snd (recog_video calm 1000 prompt_default video_url
              "gemini-2.0-flash" 5 10 (init_world ∅)))
    = stage ++ rest
    /\ List.filter is_generate stage = []
    /\ Forall generate_on_active rest
    /\ (rest <> [] ->
        exists stage', stage = stage' ++ [EvLog INFO LogWaitDone]).
Proof.
  exact (generate_only_on_active calm 1000 prompt_default video_url
           "gemini-2.0-flash" 5 10 (init_world ∅)).
Defined.

Lemma missing_key_stops_default_model_witness :
  getenv ∅ "GENAI_API_KEY" = None
  /\ fst (app calm 1000 ∅ video_url prompt_default true (init_world ∅))
     = Val Stopped
  /\ getenv key_only "GENAI_MODEL_NAME" = None
  /\ hd_error
       (new_events (init_world ∅)
          (snd (button_handler calm 1000 key_only prompt_default video_url
                  (init_world ∅))))
     = Some (EvModel "gemini-2.0-flash").
Proof.
  assert (H1 : getenv ∅ "GENAI_API_KEY" = None) by reflexivity.
  assert (H2 : getenv key_only "GENAI_MODEL_NAME" = None)
    by (vm_compute; reflexivity).
  pose proof (missing_key_stops_default_model calm 1000 ∅ video_url
                prompt_default true (init_world ∅)) as P.
  pose proof (missing_key_stops_default_model calm 1000 key_only video_url
                prompt_default true (init_world ∅)) as Q.
  cbv zeta in P, Q.
  destruct P as [P _]. destruct (P H1) as (Pv & _).
  destruct Q as [_ Q]. destruct (Q H2) as (Qv & _).
  repeat split; assumption.
Defined.

Lemma no_deletion_between_attempts_witness :
  exists pre post,
    new_events (init_world ∅)
      (snd (attempts_loop always_overloaded "gemini-2.0-flash"
              prompt_default "./videos/v.mp4" (File "files/abc" ACTIVE)
              5 10 (range 1 (5 + 1)) (init_world ∅)))
    = pre ++ post
    /\ List.filter is_deletion pre = []
    /\ List.filter is_generate post = [].
Proof.
  destruct (no_deletion_between_attempts always_overloaded "gemini-2.0-flash"
              prompt_default "./videos/v.mp4" (File "files/abc" ACTIVE)
              5 10 (init_world ∅)) as (pre & post & H1 & H2 & H3 & _).
  exists pre, post. repeat split; assumption.
Defined.

(** * Further properties of the pipeline *)

(** ** The attempts of the generation loop *)

Lemma range_length (lo hi : Z) : length (range lo hi) = Z.to_nat (hi - lo).
Proof. unfold range. now rewrite length_map, length_seq. Qed.

Lemma range_last (n : Z) : 1 <= n -> In n (range 1 (n + 1)).
Proof.
  intros Hn. unfold range. apply List.in_map_iff.
  exists (Z.to_nat (n - 1)). split; [lia |].
  apply List.in_seq. lia.
Qed.

(** With at least one attempt allowed, the loop does not run out of
    attempts silently: its last turn returns or raises. *)
Lemma loop_never_none (B : backend) (model prompt file_path : string)
    (uploaded_file : file) (max_retries retry_delay : Z) (w : world) :
  1 <= max_retries ->
  fst (attempts_loop B model prompt file_path uploaded_file max_retries
         retry_delay (range 1 (max_retries + 1)) w)
  <> Val None.
Proof.
  intros Hmax Hnone.
  destruct (loop_run B model prompt file_path uploaded_file max_retries
              retry_delay (range 1 (max_retries + 1)) w)
    as (pre & post & Hle).
  pose proof (le_none _ _ _ _ _ _ _ _ Hle Hnone) as Hall.
  rewrite List.Forall_forall in Hall.
  specialize (Hall _ (range_last _ Hmax)). lia.
Qed.

Lemma sleeps_among_steps (evs : list event) :
  List.filter is_sleep (List.filter is_retry_step evs)
  = List.filter is_sleep evs.
Proof.
  induction evs as [|ev evs IH]; [reflexivity |].
  destruct ev; simpl; now rewrite ?IH.
Qed.

Lemma cleanup_no_sleep (B : backend) (file_path : string)
    (uploaded_file : file) (w : world) (evs : list event) (w' : world) :
  cleanup_effect B file_path uploaded_file w evs w' ->
  count is_sleep evs = 0%nat /\ count is_generate evs = 0%nat.
Proof.
  intros []. unfold count.
  now rewrite <- sleeps_among_steps, ce_steps0, ce_no_generate0.
Qed.

(** The loop makes at most one request per attempt, whatever the sleeps
    do. *)
Lemma loop_requests_bound (B : backend) (model prompt file_path : string)
    (uploaded_file : file) (max_retries retry_delay : Z)
    (attempts : list Z) :
  forall w : world,
    exists evs,
      trace (snd (attempts_loop B model prompt file_path uploaded_file
                    max_retries retry_delay attempts w))
      = trace w ++ evs
      /\ (count is_generate evs <= length attempts)%nat.
Proof.
  induction attempts as [|attempt rest IH]; intros w.
  - exists []. simpl. rewrite app_nil_r. split; [reflexivity |].
    unfold count; simpl; lia.
  - rewrite loop_cons.
    destruct (snd (generate_content B (n_gen w))) as [e|] eqn:He.
    + destruct (is_ServiceUnavailable e) eqn:Hsu.
      * destruct (attempt <? max_retries) eqn:Hlt;
          [destruct (sleep_error retry_delay) as [refusal|] eqn:Hsleep |].
        -- exists [EvLog INFO (LogAttempt attempt max_retries);
                   EvGenerate model prompt uploaded_file 120;
                   EvLog WARNING (LogOverloaded e);
                   EvStWarningRetry attempt max_retries;
                   EvSleep retry_delay].
           split; [reflexivity |]. unfold count. simpl. lia.
        -- match goal with
           | |- context [attempts_loop _ _ _ _ _ _ _ rest ?w0] =>
               destruct (IH w0) as (evs & Ht & Hc)
           end.
           exists ([EvLog INFO (LogAttempt attempt max_retries);
                    EvGenerate model prompt uploaded_file 120;
                    EvLog WARNING (LogOverloaded e);
                    EvStWarningRetry attempt max_retries;
                    EvSleep retry_delay] ++ evs).
           split.
           ++ rewrite Ht. simpl. now rewrite <- !app_assoc.
           ++ rewrite count_app. unfold count at 1. simpl. lia.
        -- match goal with
           | |- context [delete_file B file_path uploaded_file ?w0] =>
               destruct (delete_file_run B file_path uploaded_file w0)
                 as (cl & w' & Hrun & Hce)
           end.
           rewrite Hrun.
           destruct (cleanup_no_sleep _ _ _ _ _ _ Hce) as [Hs Hg].
           destruct Hce. simpl in *.
           exists ([EvLog INFO (LogAttempt attempt max_retries);
                    EvGenerate model prompt uploaded_file 120;
                    EvLog WARNING (LogOverloaded e)]
                   ++ cl ++ [EvLog ERROR LogRetryExhausted]).
           split.
           ++ rewrite ce_trace0. simpl. now rewrite <- !app_assoc.
           ++ rewrite !count_app, Hg. unfold count. simpl. lia.
      * match goal with
        | |- context [delete_file B file_path uploaded_file ?w0] =>
            destruct (delete_file_run B file_path uploaded_file w0)
              as (cl & w' & Hrun & Hce)
        end.
        rewrite Hrun.
        destruct (cleanup_no_sleep _ _ _ _ _ _ Hce) as [Hs Hg].
        destruct Hce. simpl in *.
        exists ([EvLog INFO (LogAttempt attempt max_retries);
                 EvGenerate model prompt uploaded_file 120;
                 EvLog ERROR (LogUnknownError e)] ++ cl).
        split.
        -- rewrite ce_trace0. simpl. now rewrite <- !app_assoc.
        -- rewrite !count_app, Hg. unfold count. simpl. lia.
    + exists [EvLog INFO (LogAttempt attempt max_retries);
              EvGenerate model prompt uploaded_file 120;
              EvLog INFO LogAnswerDone].
      split; [reflexivity |]. unfold count. simpl. lia.
Qed.

Lemma attempt_steps_among_steps (evs : list event) :
  List.filter is_attempt_step (List.filter is_retry_step evs)
  = List.filter is_attempt_step evs.
Proof.
  induction evs as [|ev evs IH]; [reflexivity |].
  destruct ev; simpl; now rewrite ?IH.
Qed.

Lemma cleanup_no_attempt_step (B : backend) (file_path : string)
    (uploaded_file : file) (w : world) (evs : list event) (w' : world) :
  cleanup_effect B file_path uploaded_file w evs w' ->
  List.filter is_attempt_step evs = [].
Proof.
  intros []. now rewrite <- attempt_steps_among_steps, ce_steps0.
Qed.

Lemma alternate_counts (request pause : event) (j : nat) :
  is_generate request = true -> is_sleep request = false ->
  is_generate pause = false -> is_sleep pause = true ->
  count is_generate (alternate request pause j ++ [request]) = S j
  /\ count is_sleep (alternate request pause j ++ [request]) = j.
Proof.
  intros Hgr Hsr Hgp Hsp. unfold count.
  induction j as [|j [IHg IHs]]; simpl.
  - now rewrite Hgr, Hsr.
  - rewrite Hgr, Hsr, Hgp, Hsp. simpl. now rewrite IHg, IHs.
Qed.

(** With sleeps that [time.sleep] accepts, and a list of attempts of which
    one is numbered [max_retries] or beyond, requests and sleeps alternate:
    the loop begins and ends with a request. *)
Lemma loop_steps_alternate (B : backend) (model prompt file_path : string)
    (uploaded_file : file) (max_retries retry_delay : Z)
    (attempts : list Z) :
  sleep_error retry_delay = None ->
  forall w : world,
    attempts <> [] ->
    (exists a, In a attempts /\ max_retries <= a) ->
    exists evs j,
      trace (snd (attempts_loop B model prompt file_path uploaded_file
                    max_retries retry_delay attempts w))
      = trace w ++ evs
      /\ (j < length attempts)%nat
      /\ List.filter is_attempt_step evs
         = alternate (EvGenerate model prompt uploaded_file 120)
             (EvSleep retry_delay) j
           ++ [EvGenerate model prompt uploaded_file 120].
Proof.
  intros Hsleep.
  induction attempts as [|attempt rest IH]; intros w Hne Hlast;
    [now contradiction Hne |].
  rewrite loop_cons.
  destruct (snd (generate_content B (n_gen w))) as [e|] eqn:He.
  - destruct (is_ServiceUnavailable e) eqn:Hsu.
    + destruct (attempt <? max_retries) eqn:Hlt.
      * rewrite Hsleep. apply Z.ltb_lt in Hlt.
        destruct Hlast as (a & [<- | Ha] & Hle); [lia |].
        assert (Hrest : rest <> []) by (intros ->; contradiction).
        match goal with
        | |- context [attempts_loop _ _ _ _ _ _ _ rest ?w0] =>
            destruct (IH w0 Hrest) as (evs & j & Ht & Hj & Hsteps);
            [now exists a |]
        end.
        exists ([EvLog INFO (LogAttempt attempt max_retries);
                 EvGenerate model prompt uploaded_file 120;
                 EvLog WARNING (LogOverloaded e);
                 EvStWarningRetry attempt max_retries;
                 EvSleep retry_delay] ++ evs), (S j).
        split; [| split].
        -- rewrite Ht. simpl. now rewrite <- !app_assoc.
        -- simpl. lia.
        -- rewrite List.filter_app, Hsteps. reflexivity.
      * match goal with
        | |- context [delete_file B file_path uploaded_file ?w0] =>
            destruct (delete_file_run B file_path uploaded_file w0)
              as (cl & w' & Hrun & Hce)
        end.
        rewrite Hrun.
        pose proof (cleanup_no_attempt_step _ _ _ _ _ _ Hce) as Hcl.
        destruct Hce. simpl in *.
        exists ([EvLog INFO (LogAttempt attempt max_retries);
                 EvGenerate model prompt uploaded_file 120;
                 EvLog WARNING (LogOverloaded e)]
                ++ cl ++ [EvLog ERROR LogRetryExhausted]), 0%nat.
        split; [| split].
        -- rewrite ce_trace0. simpl. now rewrite <- !app_assoc.
        -- lia.
        -- rewrite !List.filter_app, Hcl. reflexivity.
    + match goal with
      | |- context [delete_file B file_path uploaded_file ?w0] =>
          destruct (delete_file_run B file_path uploaded_file w0)
            as (cl & w' & Hrun & Hce)
      end.
      rewrite Hrun.
      pose proof (cleanup_no_attempt_step _ _ _ _ _ _ Hce) as Hcl.
      destruct Hce. simpl in *.
      exists ([EvLog INFO (LogAttempt attempt max_retries);
               EvGenerate model prompt uploaded_file 120;
               EvLog ERROR (LogUnknownError e)] ++ cl), 0%nat.
      split; [| split].
      * rewrite ce_trace0. simpl. now rewrite <- !app_assoc.
      * simpl. lia.
      * rewrite !List.filter_app, Hcl. reflexivity.
  - exists [EvLog INFO (LogAttempt attempt max_retries);
            EvGenerate model prompt uploaded_file 120;
            EvLog INFO LogAnswerDone], 0%nat.
    split; [reflexivity |]. split; [simpl; lia | reflexivity].
Qed.

(** X1.  With a delay [time.sleep] accepts and at least one attempt
    allowed, the requests and the sleeps of the generation loop of
    [recog_video] alternate, whatever the model answers: the loop begins
    and ends with a request, so it never sleeps after its last request and
    sleeps fewer times than it sends requests; it sends at most
    [max_retries] requests, and every sleep lasts [retry_delay]. *)
Theorem attempts_are_bounded (B : backend) (model prompt file_path : string)
    (uploaded_file : file) (max_retries retry_delay : Z) (w : world) :
  0 <= retry_delay <= SLEEP_MAX ->
  1 <= max_retries ->
  let r := attempts_loop B model prompt file_path uploaded_file max_retries
             retry_delay (range 1 (max_retries + 1)) w in
  let evs := new_events w (snd r) in
  exists j : nat,
    (j < Z.to_nat max_retries)%nat
    /\ List.filter is_attempt_step evs
       = alternate (EvGenerate model prompt uploaded_file 120)
           (EvSleep retry_delay) j
         ++ [EvGenerate model prompt uploaded_file 120]
    /\ count is_generate evs = S j
    /\ count is_sleep evs = j
    /\ (count is_sleep evs < count is_generate evs)%nat
    /\ (count is_generate evs <= Z.to_nat max_retries)%nat.
Proof.
  intros Hdelay Hmax r evs. subst r evs.
  apply sleep_error_accepts in Hdelay.
  destruct (loop_steps_alternate B model prompt file_path uploaded_file
              max_retries retry_delay (range 1 (max_retries + 1)) Hdelay w)
    as (evs & j & Ht & Hj & Hsteps).
  { rewrite range_cons by lia. discriminate. }
  { exists max_retries. split; [now apply range_last | lia]. }
  rewrite (new_events_app _ _ _ Ht).
  rewrite range_length in Hj.
  replace (max_retries + 1 - 1) with max_retries in Hj by lia.
  assert (Hcounts :
    count is_generate evs = S j /\ count is_sleep evs = j).
  { destruct (alternate_counts (EvGenerate model prompt uploaded_file 120)
                (EvSleep retry_delay) j eq_refl eq_refl eq_refl eq_refl)
      as [Hg Hs].
    rewrite <- Hsteps in Hg, Hs. unfold count in *.
    assert (Hgen : forall l,
              List.filter is_generate (List.filter is_attempt_step l)
              = List.filter is_generate l).
    { induction l as [|ev l IHl]; [reflexivity |].
      destruct ev; simpl; now rewrite ?IHl. }
    assert (Hsl : forall l,
              List.filter is_sleep (List.filter is_attempt_step l)
              = List.filter is_sleep l).
    { induction l as [|ev l IHl]; [reflexivity |].
      destruct ev; simpl; now rewrite ?IHl. }
    now rewrite Hgen in Hg; rewrite Hsl in Hs. }
  destruct Hcounts as [Hg Hs].
  exists j. rewrite Hg, Hs. repeat split; try assumption; lia.
Qed.

Lemma attempts_are_bounded_witness :
  0 <= 10 <= SLEEP_MAX
  /\ 1 <= 5
  /\ (exists j : nat,
        (j < Z.to_nat 5)%nat
        /\ count is_sleep
             (new_events (init_world ∅)
                (snd (attempts_loop overloaded_twice "gemini-2.0-flash"
                        prompt_default "./videos/v.mp4"
                        (File "files/abc" ACTIVE) 5 10 (range 1 (5 + 1))
                        (init_world ∅))))
           = j).
Proof.
  assert (Hd : 0 <= 10 <= SLEEP_MAX) by (unfold SLEEP_MAX; lia).
  assert (Hm : 1 <= 5) by lia.
  destruct (attempts_are_bounded overloaded_twice "gemini-2.0-flash"
              prompt_default "./videos/v.mp4" (File "files/abc" ACTIVE)
              5 10 (init_world ∅) Hd Hm) as (j & Hj & _ & _ & Hs & _).
  split; [exact Hd |]. split; [exact Hm |].
  exists j. split; [exact Hj | exact Hs].
Defined.

(** ** What [recog_video] hands back *)


(** X2.  With at least one attempt allowed, [recog_video] never falls out of
    its loop: it returns the triple or raises, and a caller that unpacks the
    result never meets [None]. *)
Theorem recog_video_never_returns_none (B : backend) (fuel : nat)
    (prompt url model : string) (max_retries retry_delay : Z) (w : world) :
  1 <= max_retries ->
  fst (recog_video B fuel prompt url model max_retries retry_delay w)
  <> Val None.
Proof.
  intros Hmax. rewrite recog_video_split.
  destruct (upload_stage B fuel url w) as [[[file_path uf]|e|] w1];
    try discriminate.
  now apply loop_never_none.
Qed.

Lemma recog_video_never_returns_none_witness :
  1 <= 5
  /\ fst (recog_video always_overloaded 1000 prompt_default video_url
            "gemini-2.0-flash" 5 10 (init_world ∅))
     <> Val None.
Proof.
  assert (H : 1 <= 5) by lia.
  split; [exact H |].
  exact (recog_video_never_returns_none always_overloaded 1000
           prompt_default video_url "gemini-2.0-flash" 5 10
           (init_world ∅) H).
Defined.

(** X3.  With [max_retries] at zero or below the loop has no turn:
    [recog_video] downloads, uploads and waits, then returns [None] without
    a single request and without cleaning up, so that the downloaded file
    and the uploaded asset are left where they are.  If one of the three
    stages fails, its error is the result. *)
Theorem recog_video_without_attempts (B : backend) (fuel : nat)
    (prompt url model : string) (max_retries retry_delay : Z) (w : world) :
  max_retries <= 0 ->
  let r := recog_video B fuel prompt url model max_retries retry_delay w in
  let evs := new_events w (snd r) in
  (forall v, fst r <> Val (Some v))
  /\ List.filter is_generate evs = []
  /\ List.filter is_deletion evs = []
  /\ (forall file_path uploaded_file,
        fst (upload_stage B fuel url w) = Val (file_path, uploaded_file) ->
        fst r = Val None)
  /\ (forall e, fst (upload_stage B fuel url w) = Exc e -> fst r = Exc e)
  /\ (forall e, fst r = Exc e -> fst (upload_stage B fuel url w) = Exc e)
  /\ snd r = snd (upload_stage B fuel url w).
Proof.
  intros Hmax r evs. subst r evs.
  rewrite recog_video_split, range_nil by lia.
  destruct (Quiet_upload_stage B fuel url w) as (stage & [Ht Hg Hd _]).
  destruct (upload_stage B fuel url w) as [[[file_path uf]|e|] w1];
    simpl in *; rewrite (new_events_app _ _ _ Ht);
    repeat split; try assumption; try discriminate; try reflexivity;
    intros e' [= <-]; reflexivity.
Qed.

Lemma recog_video_without_attempts_witness :
  0 <= 0
  /\ fst (recog_video calm 1000 prompt_default video_url "gemini-2.0-flash"
            0 10 (init_world ∅))
     = Val None
  /\ List.filter is_deletion
       (new_events (init_world ∅)
          (snd (recog_video calm 1000 prompt_default video_url
                  "gemini-2.0-flash" 0 10 (init_world ∅))))
     = [].
Proof.
  assert (H : 0 <= 0) by lia.
  destruct (recog_video_without_attempts calm 1000 prompt_default video_url
              "gemini-2.0-flash" 0 10 (init_world ∅) H)
    as (_ & _ & Hd & Hnone & _).
  split; [exact H |]. split; [| exact Hd].
  exact (Hnone "./videos/v.mp4" (File "files/abc" ACTIVE) eq_refl).
Defined.

(** X4.  Whatever happens in the pipeline, [recog_video] sends no more than
    [max_retries] generation requests. *)
Theorem recog_video_requests_bounded (B : backend) (fuel : nat)
    (prompt url model : string) (max_retries retry_delay : Z) (w : world) :
  (count is_generate
     (new_events w
        (snd (recog_video B fuel prompt url model max_retries retry_delay
                w)))
   <= Z.to_nat max_retries)%nat.
Proof.
  rewrite recog_video_split.
  destruct (Quiet_upload_stage B fuel url w) as (stage & [Ht Hg Hd _]).
  assert (Hstage : count is_generate stage = 0%nat)
    by (unfold count; now rewrite Hg).
  destruct (upload_stage B fuel url w) as [[[file_path uf]|e|] w1];
    simpl in *;
    try (rewrite (new_events_app _ _ _ Ht), Hstage; lia).
  destruct (loop_requests_bound B model prompt file_path uf max_retries
              retry_delay (range 1 (max_retries + 1)) w1)
    as (evs & Hl & Hc).
  assert (Hnew :
    trace (snd (attempts_loop B model prompt file_path uf max_retries
                  retry_delay (range 1 (max_retries + 1)) w1))
    = trace w ++ (stage ++ evs))
    by (rewrite Hl, Ht; now rewrite <- app_assoc).
  rewrite (new_events_app _ _ _ Hnew), count_app, Hstage.
  rewrite range_length in Hc. lia.
Qed.

(** ** Cleanup over a whole run of the handler *)

(** X5.  In a run of the button handler that starts with the names
    [file_path] and [uploaded_file] unbound, [delete_file] is called once if
    a generation request was sent and not at all otherwise: whenever the
    pipeline stops before the generation stage nothing is cleaned up. *)
Theorem handler_cleans_up_iff_generation_started (B : backend) (fuel : nat)
    (environ : gmap string string) (prompt url : string) (w : world) :
  globals w = None ->
  let r := button_handler B fuel environ prompt url w in
  let evs := new_events w (snd r) in
  fst r <> NoFuel ->
  cleanup_calls evs
  = (if (count is_generate evs =? 0)%nat then 0 else 1)%nat.
Proof.
  intros Hfresh r evs Hfuel. subst r evs.
  destruct (button_handler_run B fuel environ prompt url w) as (tail & Hhe).
  cbv zeta in Hhe.
  set (model := getenv_default environ "GENAI_MODEL_NAME" "gemini-2.0-flash")
    in *.
  destruct (recog_video_run B fuel prompt url model 5 10
              (handler_entry model w)) as (stage & rest & Hpe).
  assert (Hsome :
    fst (recog_video B fuel prompt url model 5 10 (handler_entry model w))
    <> Val None).
  { rewrite recog_video_split.
    destruct (upload_stage B fuel url (handler_entry model w))
      as [[[file_path uf]|e|] w1]; try discriminate.
    apply loop_never_none. lia. }
  destruct Hhe, Hpe.
  assert (Hnew :
    trace (snd (button_handler B fuel environ prompt url w))
    = trace w ++ ([EvModel model; EvStSpinner] ++ stage ++ rest ++ tail)).
  { rewrite he_trace0, pe_trace0. simpl. now rewrite <- !app_assoc. }
  rewrite (new_events_app _ _ _ Hnew).
  unfold cleanup_calls in *. rewrite !count_app.
  assert (Hs1 : count is_remote_delete stage = 0%nat)
    by now apply no_deletion_no_cleanup.
  assert (Hs2 : count is_generate stage = 0%nat)
    by (unfold count; now rewrite pe_stage_generate0).
  assert (Ht2 : count is_generate tail = 0%nat)
    by (unfold count; now rewrite he_generate0).
  rewrite Hs1, Hs2, Ht2.
  change (count is_remote_delete [EvModel model; EvStSpinner]) with 0%nat.
  change (count is_generate [EvModel model; EvStSpinner]) with 0%nat.
  destruct (fst (recog_video B fuel prompt url model 5 10
                   (handler_entry model w))) as [[v|]|e|] eqn:Hrv.
  - rewrite (pe_val0 _ eq_refl), (he_success0 _ eq_refl).
    destruct rest as [|ev rest'].
    + now contradiction (pe_early0 eq_refl v).
    + specialize (pe_started0 ltac:(discriminate)).
      destruct (count is_generate (ev :: rest')); [lia | reflexivity].
  - now contradiction Hsome.
  - rewrite he_failure0 by (assumption || discriminate).
    destruct rest as [|ev rest'].
    + reflexivity.
    + rewrite (pe_exc0 eq_refl e eq_refl) by discriminate.
      specialize (pe_started0 ltac:(discriminate)).
      destruct (count is_generate (ev :: rest')); [lia | reflexivity].
  - contradiction Hfuel. now apply he_fuel0.
Qed.

Lemma handler_cleans_up_iff_generation_started_witness :
  globals (init_world ∅) = None
  /\ cleanup_calls
       (new_events (init_world ∅)
          (snd (button_handler never_active 1000 key_only prompt_default
                  video_url (init_world ∅))))
     = 0%nat
  /\ cleanup_calls
       (new_events (init_world ∅)
          (snd (button_handler always_overloaded 1000 key_only
                  prompt_default video_url (init_world ∅))))
     = 1%nat.
Proof.
  assert (H : globals (init_world ∅) = None) by reflexivity.
  split; [exact H |]. split.
  - rewrite (handler_cleans_up_iff_generation_started never_active 1000
               key_only prompt_default video_url (init_world ∅) H)
      by (vm_compute; discriminate).
    vm_compute. reflexivity.
  - rewrite (handler_cleans_up_iff_generation_started always_overloaded 1000
               key_only prompt_default video_url (init_world ∅) H)
      by (vm_compute; discriminate).
    vm_compute. reflexivity.
Defined.

(** ** The two ways a run of the handler ends *)

Opaque recog_video delete_file.

(** X6.  When [recog_video] raises, the handler logs the error, shows it
    with [st.error], and then only logs the warning for the unbound name
    [file_path]: it returns normally, shows no success message, and leaves
    disk and remote store exactly as [recog_video] left them. *)
Theorem handler_reports_failure (B : backend) (fuel : nat)
    (environ : gmap string string) (prompt url : string) (w : world)
    (e : exn) :
  let model := getenv_default environ "GENAI_MODEL_NAME" "gemini-2.0-flash" in
  let rv := recog_video B fuel prompt url model 5 10 (handler_entry model w) in
  let r := button_handler B fuel environ prompt url w in
  fst rv = Exc e ->
  globals w = None ->
  fst r = Val tt
  /\ trace (snd r)
     = trace (snd rv)
       ++ [EvLog ERROR (LogAnalysisError e); EvStErrorExn e;
           EvLog WARNING (LogTempDeleteError (NameError "file_path"))]
  /\ fs (snd r) = fs (snd rv)
  /\ remote (snd r) = remote (snd rv).
Proof.
  intros model rv r Hrv Hfresh. subst rv r.
  unfold button_handler. fold model.
  run. rewrite <- !app_assoc. simpl. fold (handler_entry model w).
  destruct (recog_video_run B fuel prompt url model 5 10
              (handler_entry model w)) as (stage & rest & Hpe).
  pose proof (pe_globals _ _ _ _ _ _ Hpe) as Hgl. simpl in Hgl. clear Hpe.
  destruct (recog_video B fuel prompt url model 5 10 (handler_entry model w))
    as [[v|e'|] w1]; simpl in *; try discriminate.
  injection Hrv as ->.
  unfold read_globals. simpl. rewrite Hgl, Hfresh. simpl.
  repeat split. now rewrite <- !app_assoc.
Qed.

(** X7.  When [recog_video] returns, the handler binds the three names,
    shows the video and the answer, and only then calls [delete_file] on the
    very path and asset that were returned; the log entry and the success
    message follow whether or not the deletions worked.  The file is gone
    from disk and the asset from the remote store when the respective
    deletion succeeds. *)
Theorem handler_shows_answer_then_cleans (B : backend) (fuel : nat)
    (environ : gmap string string) (prompt url : string) (w : world)
    (file_path : string) (uploaded_file : file) (answer : string) :
  let model := getenv_default environ "GENAI_MODEL_NAME" "gemini-2.0-flash" in
  let rv := recog_video B fuel prompt url model 5 10 (handler_entry model w) in
  let r := button_handler B fuel environ prompt url w in
  fst rv = Val (Some (file_path, uploaded_file, answer)) ->
  fst r = Val tt
  /\ globals (snd r) = Some (file_path, uploaded_file, answer)
  /\ (exists cl,
        trace (snd r)
        = trace (snd rv)
          ++ [EvStVideo file_path; EvStMarkdown "box style";
              EvStAnswer answer]
          ++ cl ++ [EvLog INFO LogTempDeleted; EvStSuccess]
        /\ hd_error cl = Some (EvExists file_path)
        /\ List.filter is_retry_step cl
           = [EvRemoteDelete (name uploaded_file)])
  /\ (os_remove B (n_rm (snd rv)) file_path = None ->
      file_path ∉ fs (snd r))
  /\ (remote_delete B (n_del (snd rv)) (name uploaded_file) = None ->
      name uploaded_file ∉ remote (snd r)).
Proof.
  intros model rv r Hrv. subst rv r.
  unfold button_handler. fold model.
  run. rewrite <- !app_assoc. simpl. fold (handler_entry model w).
  destruct (recog_video B fuel prompt url model 5 10 (handler_entry model w))
    as [[v|e'|] w1]; simpl in *; try discriminate.
  injection Hrv as ->. simpl.
  match goal with
  | |- context [delete_file B file_path uploaded_file ?w0] =>
      destruct (delete_file_run B file_path uploaded_file w0)
        as (cl & w2 & Hrun & Hce)
  end.
  rewrite Hrun. destruct Hce. simpl in *.
  split; [reflexivity |]. split; [exact ce_globals0 |].
  split; [| split; assumption].
  exists cl. split; [| split; assumption].
  rewrite ce_trace0. now rewrite <- !app_assoc.
Qed.

Transparent recog_video delete_file.

Lemma handler_reports_failure_witness :
  fst (recog_video upload_refused 1000 prompt_default video_url
         "gemini-2.0-flash" 5 10
         (handler_entry "gemini-2.0-flash" (init_world ∅)))
  = Exc (OtherException "ResourceExhausted" "quota")
  /\ globals (init_world ∅) = None
  /\ fst (button_handler upload_refused 1000 key_only prompt_default
            video_url (init_world ∅))
     = Val tt
  /\ fs (snd (button_handler upload_refused 1000 key_only prompt_default
                video_url (init_world ∅)))
     = fs (snd (recog_video upload_refused 1000 prompt_default video_url
                  "gemini-2.0-flash" 5 10
                  (handler_entry "gemini-2.0-flash" (init_world ∅)))).
Proof.
  assert (H1 : fst (recog_video upload_refused 1000 prompt_default video_url
                      "gemini-2.0-flash" 5 10
                      (handler_entry "gemini-2.0-flash" (init_world ∅)))
               = Exc (OtherException "ResourceExhausted" "quota"))
    by (vm_compute; reflexivity).
  assert (H2 : globals (init_world ∅) = None) by reflexivity.
  destruct (handler_reports_failure upload_refused 1000 key_only
              prompt_default video_url (init_world ∅)
              (OtherException "ResourceExhausted" "quota") H1 H2)
    as (Hv & _ & Hfs & _).
  split; [exact H1 |]. split; [exact H2 |]. split; [exact Hv | exact Hfs].
Defined.

Lemma handler_shows_answer_then_cleans_witness :
  fst (recog_video calm 1000 prompt_default video_url "gemini-2.0-flash"
         5 10 (handler_entry "gemini-2.0-flash" (init_world ∅)))
  = Val (Some ("./videos/v.mp4", File "files/abc" ACTIVE, "Hello, world!"))
  /\ fst (button_handler calm 1000 key_only prompt_default video_url
            (init_world ∅))
     = Val tt
  /\ ("./videos/v.mp4"
      ∉ fs (snd (button_handler calm 1000 key_only prompt_default
                   video_url (init_world ∅)))).
Proof.
  assert (H1 : fst (recog_video calm 1000 prompt_default video_url
                      "gemini-2.0-flash" 5 10
                      (handler_entry "gemini-2.0-flash" (init_world ∅)))
               = Val (Some ("./videos/v.mp4", File "files/abc" ACTIVE,
                            "Hello, world!")))
    by (vm_compute; reflexivity).
  destruct (handler_shows_answer_then_cleans calm 1000 key_only
              prompt_default video_url (init_world ∅) "./videos/v.mp4"
              (File "files/abc" ACTIVE) "Hello, world!" H1)
    as (Hv & _ & _ & Hfs & _).
  split; [exact H1 |]. split; [exact Hv |].
  exact (Hfs eq_refl).
Defined.

(** ** Termination of the polling loop *)

Section Clock.

Variable B : backend.
Variables timeout interval : Z.
Variable t0 : nat.

(** The clock does not run backwards between the reading of the start time
    and the first reading in the loop, and every later reading, taken after
    a sleep, is at least [interval] later than the one before. *)
Hypothesis clock_start : (time_time B t0 <= time_time B (S t0))%Q.
Hypothesis clock_step :
  forall k, (t0 < k)%nat ->
    (time_time B k + inject_Z interval <= time_time B (S k))%Q.

(** The subtraction of two readings rounds, but not across an integer of
    the range the loop can reach: a difference of at least [n] seconds is
    computed as at least [n]. *)
Hypothesis rounding :
  forall (a b : Q) (n : Z),
    0 <= n <= Z.max 0 timeout + interval ->
    (inject_Z n <= a - b)%Q -> (inject_Z n <= float_sub B a b)%Q.

Lemma exact_lower_bound (i : nat) :
  (inject_Z (interval * Z.of_nat i)
   <= time_time B (S t0 + i) - time_time B t0)%Q.
Proof.
  induction i as [|i IH].
  - rewrite Z.mul_0_r, Nat.add_0_r.
    apply (Qplus_le_l _ _ (time_time B t0)).
    ring_simplify. exact clock_start.
  - replace (interval * Z.of_nat (S i)) with (interval * Z.of_nat i + interval)
      by lia.
    rewrite inject_Z_plus.
    replace (S t0 + S i)%nat with (S (S t0 + i)) by lia.
    pose proof (clock_step (S t0 + i) ltac:(lia)) as Hstep.
    apply (Qplus_le_l _ _ (time_time B t0)).
    apply (Qplus_le_l _ _ (time_time B t0)) in IH.
    ring_simplify. ring_simplify in IH.
    eapply Qle_trans; [| exact Hstep].
    apply (Qplus_le_l _ _ (- inject_Z interval)). ring_simplify.
    ring_simplify in IH. exact IH.
Qed.

Hypothesis interval_pos : 0 < interval.

Let rounds : nat := Z.to_nat (timeout / interval).

Lemma reachable (i : nat) :
  (i <= rounds + 1)%nat ->
  0 <= interval * Z.of_nat i <= Z.max 0 timeout + interval.
Proof.
  intros Hi. subst rounds. split; [nia |].
  destruct (Z_lt_le_dec timeout 0) as [Hneg | Hpos].
  - assert (timeout / interval < 0)
      by (apply Z.div_lt_upper_bound; lia).
    replace (Z.to_nat (timeout / interval)) with 0%nat in Hi by lia.
    nia.
  - pose proof (Z.mul_div_le timeout interval interval_pos) as Hdiv.
    assert (0 <= timeout / interval) by (apply Z.div_pos; lia).
    nia.
Qed.

Lemma elapsed_lower_bound (i : nat) :
  (i <= rounds + 1)%nat ->
  (inject_Z (interval * Z.of_nat i) <= elapsed_at B t0 i)%Q.
Proof.
  intros Hi. unfold elapsed_at.
  apply rounding; [now apply reachable | apply exact_lower_bound].
Qed.

(** From iteration [i] on, with enough fuel for the iterations that are
    left, the loop ends, after at most [rounds + 1 - i] more polls. *)
Lemma wait_loop_bounded (fuel : nat) :
  forall (i : nat) (uploaded_file : file) (w : world),
    n_time w = (S t0 + i)%nat ->
    (i <= rounds + 1)%nat ->
    (rounds + 2 <= fuel + i)%nat ->
    exists evs,
      trace (snd (wait_loop B fuel (time_time B t0) timeout interval
                    uploaded_file w))
      = trace w ++ evs
      /\ fst (wait_loop B fuel (time_time B t0) timeout interval
                uploaded_file w)
         <> NoFuel
      /\ (count is_get_file evs <= rounds + 1 - i)%nat.
Proof.
  induction fuel as [|fuel IH]; intros i uploaded_file w Hn Hi Hfuel; simpl.
  - lia.
  - destruct (state uploaded_file =? 2) eqn:Hst; simpl.
    + exists []. rewrite app_nil_r. repeat split; [discriminate |].
      unfold count. simpl. lia.
    + unfold time. run. rewrite Hn.
      pose proof (elapsed_lower_bound i Hi) as Hlow.
      unfold elapsed_at in Hlow.
      destruct (Qlt_le_dec _ _) as [Hlate | Hok]; run.
      * exists [EvTime; EvLog ERROR LogWaitTimeout].
        rewrite <- !app_assoc. repeat split; [discriminate |].
        unfold count. simpl. lia.
      * assert (Hle : interval * Z.of_nat i <= timeout).
        { apply Qle_trans with (1 := Hlow) in Hok.
          unfold Qle in Hok. simpl in Hok. lia. }
        assert (Hround : (i <= rounds)%nat).
        { subst rounds.
          assert (Z.of_nat i <= timeout / interval)
            by (apply Z.div_le_lower_bound; lia).
          lia. }
        unfold time_sleep, genai_get_file. run.
        destruct (sleep_error interval) as [refusal|]; run.
        -- exists [EvTime; EvSleep interval].
           rewrite <- !app_assoc. repeat split; [discriminate |].
           unfold count. simpl. lia.
        -- destruct (get_file B (n_get w) (name uploaded_file))
             as [e|polled]; run.
           ++ exists [EvTime; EvSleep interval;
                      EvGetFile (name uploaded_file)].
              rewrite <- !app_assoc. repeat split; [discriminate |].
              unfold count. simpl. lia.
           ++ match goal with
              | |- context [wait_loop B fuel _ timeout interval ?f ?w1] =>
                  destruct (IH (S i) f w1) as (evs & Ht & Hnf & Hc);
                  [simpl; lia | lia | lia |]
              end.
              exists ([EvTime; EvSleep interval;
                       EvGetFile (name uploaded_file)] ++ evs).
              split; [| split].
              ** rewrite Ht. simpl. now rewrite <- !app_assoc.
              ** exact Hnf.
              ** rewrite count_app. unfold count at 1. simpl. lia.
Qed.

End Clock.

(** X8.  The polling loop of [wait_for_file_active] ends.  If the clock does
    not run backwards before the first look, and after every sleep reads at
    least [interval] > 0 later than before it, and the subtraction of two
    readings does not round a difference of [n] seconds or more below [n]
    (for the whole numbers [n] up to [timeout + interval]), then the
    function returns or raises after at most [timeout / interval + 1]
    polls, whatever the file service answers. *)
Theorem wait_for_file_active_terminates (B : backend) (uploaded_file : file)
    (timeout interval : Z) (fuel : nat) (w : world) :
  0 < interval ->
  (time_time B (n_time w) <= time_time B (S (n_time w)))%Q ->
  (forall k, (n_time w < k)%nat ->
     (time_time B k + inject_Z interval <= time_time B (S k))%Q) ->
  (forall (a b : Q) (n : Z),
     0 <= n <= Z.max 0 timeout + interval ->
     (inject_Z n <= a - b)%Q -> (inject_Z n <= float_sub B a b)%Q) ->
  (Z.to_nat (timeout / interval) + 2 <= fuel)%nat ->
  let r := wait_for_file_active B fuel uploaded_file timeout interval w in
  fst r <> NoFuel
  /\ (count is_get_file (new_events w (snd r))
      <= Z.to_nat (timeout / interval) + 1)%nat.
Proof.
  intros Hint Hstart Hstep Hround Hfuel r. subst r.
  rewrite wait_for_file_active_unfold.
  match goal with
  | |- context [wait_loop B fuel _ timeout interval uploaded_file ?w1] =>
      destruct (wait_loop_bounded B timeout interval (n_time w) Hstart Hstep
                  Hround Hint fuel 0%nat uploaded_file w1)
        as (evs & Ht & Hnf & Hc); [simpl; lia | lia | lia |];
      destruct (wait_loop B fuel (time_time B (n_time w)) timeout interval
                  uploaded_file w1) as [[f|e|] w']
  end; simpl in *.
  - split; [discriminate |].
    assert (Hnew : trace w' ++ [EvLog INFO LogWaitDone]
                   = trace w
                     ++ ([EvLog INFO (LogWaitStart (name uploaded_file));
                          EvTime] ++ evs ++ [EvLog INFO LogWaitDone]))
      by (rewrite Ht; now rewrite <- !app_assoc).
    unfold new_events. simpl. rewrite Hnew.
    rewrite drop_app_length. rewrite !count_app.
    unfold count at 1 3. simpl. lia.
  - split; [discriminate |].
    assert (Hnew : trace w'
                   = trace w
                     ++ ([EvLog INFO (LogWaitStart (name uploaded_file));
                          EvTime] ++ evs))
      by (rewrite Ht; now rewrite <- !app_assoc).
    rewrite (new_events_app _ _ _ Hnew), count_app.
    unfold count at 1. simpl. lia.
  - now contradiction Hnf.
Qed.

Lemma wait_for_file_active_terminates_witness :
  0 < 1
  /\ (Z.to_nat (300 / 1) + 2 <= 1000)%nat
  /\ fst (wait_for_file_active never_active 1000
            (File "files/abc" PROCESSING) 300 1 (init_world ∅))
     <> NoFuel.
Proof.
  assert (H1 : 0 < 1) by lia.
  assert (H3 : (time_time never_active (n_time (init_world ∅))
                <= time_time never_active (S (n_time (init_world ∅))))%Q)
    by (vm_compute; discriminate).
  assert (H4 : forall k, (n_time (init_world ∅) < k)%nat ->
                 (time_time never_active k + inject_Z 1
                  <= time_time never_active (S k))%Q).
  { intros k _. unfold Qle. simpl. lia. }
  assert (H5 : (Z.to_nat (300 / 1) + 2 <= 1000)%nat)
    by (vm_compute; lia).
  assert (H6 : forall (a b : Q) (n : Z),
                 0 <= n <= Z.max 0 300 + 1 ->
                 (inject_Z n <= a - b)%Q ->
                 (inject_Z n <= float_sub never_active a b)%Q).
  { intros a b n _ Hn. exact Hn. }
  destruct (wait_for_file_active_terminates never_active
              (File "files/abc" PROCESSING) 300 1 1000 (init_world ∅)
              H1 H3 H4 H6 H5) as (Hnf & _).
  repeat split; assumption.
Defined.

(** ** What the polling loop can end with *)

Lemma wait_loop_outcomes (B : backend) (start_time : Q)
    (timeout interval : Z) (fuel : nat) :
  forall (uploaded_file : file) (w : world),
    let r := wait_loop B fuel start_time timeout interval uploaded_file w in
    exists evs,
      trace (snd r) = trace w ++ evs
      /\ (forall f, fst r = Val f ->
            state f = 2
            /\ count is_sleep evs = count is_get_file evs)
      /\ (forall e, fst r = Exc e ->
            (e = TimeoutError MSG_TIMEOUT
             /\ count is_sleep evs = count is_get_file evs)
            \/ (sleep_error interval = Some e
                /\ count is_sleep evs = 1%nat
                /\ count is_get_file evs = 0%nat)
            \/ (exists k nm, get_file B k nm = inl e))
      /\ Forall (fun ev => is_sleep ev = true -> ev = EvSleep interval) evs
      /\ (exists k,
            List.filter is_get_file evs
            = map EvGetFile (polled_names B (n_get w) uploaded_file k))
      /\ fs (snd r) = fs w
      /\ remote (snd r) = remote w.
Proof.
  induction fuel as [|fuel IH]; intros uploaded_file w; simpl.
  - destruct (state uploaded_file =? 2) eqn:Hst; simpl.
    + exists []. rewrite app_nil_r. apply Z.eqb_eq in Hst.
      split; [reflexivity |].
      split; [intros f [= <-]; now split |].
      split; [discriminate |].
      split; [constructor |].
      split; [now exists 0%nat | now split].
    + exists []. rewrite app_nil_r.
      split; [reflexivity |].
      split; [discriminate |]. split; [discriminate |].
      split; [constructor |].
      split; [now exists 0%nat | now split].
  - destruct (state uploaded_file =? 2) eqn:Hst; simpl.
    + exists []. rewrite app_nil_r. apply Z.eqb_eq in Hst.
      split; [reflexivity |].
      split; [intros f [= <-]; now split |].
      split; [discriminate |].
      split; [constructor |].
      split; [now exists 0%nat | now split].
    + unfold time. run.
      destruct (Qlt_le_dec _ _); run.
      * exists [EvTime; EvLog ERROR LogWaitTimeout].
        rewrite <- !app_assoc.
        split; [reflexivity |].
        split; [discriminate |].
        split; [intros e [= <-]; now left |].
        split; [repeat (constructor; [simpl; easy |]); constructor |].
        split; [now exists 0%nat | now split].
      * unfold time_sleep, genai_get_file. run.
        destruct (sleep_error interval) as [refusal|] eqn:Hsleep; run.
        -- exists [EvTime; EvSleep interval].
           rewrite <- !app_assoc.
           split; [reflexivity |].
           split; [discriminate |].
           split; [intros e [= <-]; right; left; now repeat split |].
           split; [repeat (constructor; [simpl; easy |]); constructor |].
           split; [now exists 0%nat | now split].
        -- destruct (get_file B (n_get w) (name uploaded_file))
             as [e|polled] eqn:Hg; run.
           ++ exists [EvTime; EvSleep interval;
                      EvGetFile (name uploaded_file)].
              rewrite <- !app_assoc.
              split; [reflexivity |].
              split; [discriminate |].
              split; [intros e' [= <-]; right; right;
                      now exists (n_get w), (name uploaded_file) |].
              split; [repeat (constructor; [simpl; easy |]); constructor |].
              split; [| now split].
              exists 1%nat. simpl. now rewrite Hg.
           ++ match goal with
              | |- context [wait_loop B fuel _ timeout interval ?f ?w1] =>
                  destruct (IH f w1)
                    as (evs & Ht & Hv & He & Hs & (k & Hgf) & Hfs & Hrem)
              end.
              simpl in *.
              exists ([EvTime; EvSleep interval;
                       EvGetFile (name uploaded_file)] ++ evs).
              split; [| split; [| split; [| split; [| split; [| split]]]]].
              ** rewrite Ht. now rewrite <- !app_assoc.
              ** intros f Hf. destruct (Hv f Hf) as [Hact Hc].
                 split; [exact Hact |].
                 rewrite !count_app. unfold count at 1 3. simpl. lia.
              ** intros e He'.
                 destruct (He e He')
                   as [[-> Hc] | [(Hrefused & _) | (k' & nm & Hget)]].
                 --- left. split; [reflexivity |].
                     rewrite !count_app. unfold count at 1 3. simpl. lia.
                 --- congruence.
                 --- right. right. now exists k', nm.
              ** apply Forall_app. split; [| exact Hs].
                 repeat (constructor; [simpl; easy |]). constructor.
              ** exists (S k). simpl. now rewrite Hg, Hgf.
              ** exact Hfs.
              ** exact Hrem.
Qed.

(** X9.  However the clock and the file service behave, and whatever the
    poll interval, [wait_for_file_active] has four ways to end.  An asset
    it returns is in state [2].  The only exception of its own is
    [TimeoutError].  If [time.sleep] refuses the interval, its exception
    ends the function at the first sleep, before any poll.  Any other
    exception is one that [genai.get_file] raised, passed on uncaught.
    Unless a sleep or a poll raised, every poll was preceded by one sleep;
    every sleep is asked to last [interval]; the polls ask, in order, for
    the name of the uploaded object and then for the name of the object the
    previous poll returned; and neither the disk nor the remote store is
    changed. *)
Theorem wait_for_file_active_outcomes (B : backend) (fuel : nat)
    (uploaded_file : file) (timeout interval : Z) (w : world) :
  let r := wait_for_file_active B fuel uploaded_file timeout interval w in
  let evs := new_events w (snd r) in
  (forall f, fst r = Val f ->
     state f = 2 /\ count is_sleep evs = count is_get_file evs)
  /\ (forall e, fst r = Exc e ->
        (e = TimeoutError MSG_TIMEOUT
         /\ count is_sleep evs = count is_get_file evs)
        \/ (sleep_error interval = Some e
            /\ count is_sleep evs = 1%nat
            /\ count is_get_file evs = 0%nat)
        \/ (exists k nm, get_file B k nm = inl e))
  /\ Forall (fun ev => is_sleep ev = true -> ev = EvSleep interval) evs
  /\ (exists k,
        List.filter is_get_file evs
        = map EvGetFile (polled_names B (n_get w) uploaded_file k))
  /\ fs (snd r) = fs w
  /\ remote (snd r) = remote w.
Proof.
  intros r evs. subst r evs.
  rewrite wait_for_file_active_unfold.
  match goal with
  | |- context [wait_loop B fuel ?st timeout interval uploaded_file ?w1] =>
      destruct (wait_loop_outcomes B st timeout interval fuel uploaded_file
                  w1) as (evs & Ht & Hv & He & Hs & (k & Hgf) & Hfs & Hrem);
      destruct (wait_loop B fuel st timeout interval uploaded_file w1)
        as [[f|e|] w']
  end; simpl in *.
  - assert (Hnew : trace w' ++ [EvLog INFO LogWaitDone]
                   = trace w
                     ++ ([EvLog INFO (LogWaitStart (name uploaded_file));
                          EvTime] ++ evs ++ [EvLog INFO LogWaitDone]))
      by (rewrite Ht; now rewrite <- !app_assoc).
    unfold new_events. simpl. rewrite Hnew, drop_app_length.
    split; [| split; [| split; [| split; [| split]]]];
      try assumption; try discriminate.
    + intros f' [= <-]. destruct (Hv f eq_refl) as [Hact Hc].
      split; [exact Hact |].
      rewrite !count_app. unfold count at 1 3 4 6. simpl. lia.
    + rewrite !Forall_app. repeat split; try assumption;
        repeat (constructor; [simpl; easy |]); constructor.
    + exists k. rewrite !List.filter_app, Hgf. simpl.
      now rewrite app_nil_r.
  - assert (Hnew : trace w'
                   = trace w
                     ++ ([EvLog INFO (LogWaitStart (name uploaded_file));
                          EvTime] ++ evs))
      by (rewrite Ht; now rewrite <- !app_assoc).
    rewrite (new_events_app _ _ _ Hnew).
    split; [| split; [| split; [| split; [| split]]]];
      try assumption; try discriminate.
    + rewrite !Forall_app. repeat split; try assumption;
        repeat (constructor; [simpl; easy |]); constructor.
    + exists k. now rewrite !List.filter_app, Hgf.
  - assert (Hnew : trace w'
                   = trace w
                     ++ ([EvLog INFO (LogWaitStart (name uploaded_file));
                          EvTime] ++ evs))
      by (rewrite Ht; now rewrite <- !app_assoc).
    rewrite (new_events_app _ _ _ Hnew).
    split; [| split; [| split; [| split; [| split]]]];
      try assumption; try discriminate.
    + rewrite !Forall_app. repeat split; try assumption;
        repeat (constructor; [simpl; easy |]); constructor.
    + exists k. now rewrite !List.filter_app, Hgf.
Qed.

Lemma wait_for_file_active_outcomes_witness :
  fst (wait_for_file_active calm 1000 (File "files/abc" PROCESSING) 300 1
         (init_world ∅))
  = Val (File "files/abc" ACTIVE)
  /\ count is_sleep
       (new_events (init_world ∅)
          (snd (wait_for_file_active calm 1000 (File "files/abc" PROCESSING)
                  300 1 (init_world ∅))))
     = count is_get_file
         (new_events (init_world ∅)
            (snd (wait_for_file_active calm 1000
                    (File "files/abc" PROCESSING) 300 1 (init_world ∅))))
  /\ fst (wait_for_file_active calm 1000 (File "files/abc" PROCESSING) 300
            (-1) (init_world ∅))
     = Exc (ValueError MSG_SLEEP_NEGATIVE)
  /\ count is_get_file
       (new_events (init_world ∅)
          (snd (wait_for_file_active calm 1000 (File "files/abc" PROCESSING)
                  300 (-1) (init_world ∅))))
     = 0%nat.
Proof.
  assert (H1 : fst (wait_for_file_active calm 1000
                      (File "files/abc" PROCESSING) 300 1 (init_world ∅))
               = Val (File "files/abc" ACTIVE))
    by (vm_compute; reflexivity).
  assert (H2 : fst (wait_for_file_active calm 1000
                      (File "files/abc" PROCESSING) 300 (-1) (init_world ∅))
               = Exc (ValueError MSG_SLEEP_NEGATIVE))
    by (vm_compute; reflexivity).
  destruct (wait_for_file_active_outcomes calm 1000
              (File "files/abc" PROCESSING) 300 1 (init_world ∅))
    as (Hv & _).
  destruct (Hv _ H1) as (_ & Hc).
  destruct (wait_for_file_active_outcomes calm 1000
              (File "files/abc" PROCESSING) 300 (-1) (init_world ∅))
    as (_ & He & _).
  split; [exact H1 |]. split; [exact Hc |]. split; [exact H2 |].
  destruct (He _ H2) as [[Hto _] | [(_ & _ & Hnone) | (k & nm & Hget)]].
  - discriminate Hto.
  - exact Hnone.
  - vm_compute in Hget. discriminate Hget.
Defined.

(** ** The download, once the link is accepted *)

(** X10.  When the video object is built and a stream is found,
    [download_youtube] calls [download] once, into [./videos].  If the
    download succeeds it returns the path the library reports, which is then
    on disk, and its last call is the log of the success.  If the download
    raises, the same exception reaches the caller after being logged at
    level [ERROR]; the function removes nothing, so whatever the library
    had written stays on disk.  The remote store is not touched. *)
Theorem download_youtube_after_acceptance (B : backend) (url : string)
    (w : world) :
  refused_before_download B url = None ->
  let r := download_youtube B url w in
  let evs := new_events w (snd r) in
  List.filter is_download evs = [EvDownload url "./videos"]
  /\ fs w ⊆ fs (snd r)
  /\ remote (snd r) = remote w
  /\ (forall file_path,
        download B url = inr file_path ->
        fst r = Val file_path
        /\ fs (snd r) = {[file_path]} ∪ fs w
        /\ last evs = Some (EvLog INFO (LogDownloadOk file_path)))
  /\ (forall e partial,
        download B url = inl (e, partial) ->
        fst r = Exc e
        /\ fs (snd r)
           = match partial with
             | Some written => {[written]} ∪ fs w
             | None => fs w
             end
        /\ last evs = Some (EvLog ERROR (LogDownloadFail e))).
Proof.
  intros Hacc r evs. subst r evs. unfold refused_before_download in Hacc.
  destruct (youtube B url) as [e0|] eqn:Hy; [discriminate |].
  destruct (highest_resolution B url) as [e0|[|]] eqn:Hh; try discriminate.
  unfold download_youtube, stream_download. run. rewrite Hy. run.
  rewrite Hh. run.
  destruct (download B url) as [[e [written|]]|file_path] eqn:Hd; run.
  - rewrite (new_events_app w _
               [EvLog INFO (LogDownloadTry url); EvYouTube url;
                EvHighestResolution url; EvDownload url "./videos";
                EvLog ERROR (LogDownloadFail e)])
      by (simpl; now rewrite <- !app_assoc).
    split; [reflexivity |]. split; [set_solver |]. split; [reflexivity |].
    split; [discriminate |].
    intros e' partial [= <- <-]. now repeat split.
  - rewrite (new_events_app w _
               [EvLog INFO (LogDownloadTry url); EvYouTube url;
                EvHighestResolution url; EvDownload url "./videos";
                EvLog ERROR (LogDownloadFail e)])
      by (simpl; now rewrite <- !app_assoc).
    split; [reflexivity |]. split; [set_solver |]. split; [reflexivity |].
    split; [discriminate |].
    intros e' partial [= <- <-]. now repeat split.
  - rewrite (new_events_app w _
               [EvLog INFO (LogDownloadTry url); EvYouTube url;
                EvHighestResolution url; EvDownload url "./videos";
                EvLog INFO (LogDownloadOk file_path)])
      by (simpl; now rewrite <- !app_assoc).
    split; [reflexivity |]. split; [set_solver |]. split; [reflexivity |].
    split; [| discriminate].
    intros p [= <-]. now repeat split.
Qed.

Lemma download_youtube_after_acceptance_witness :
  refused_before_download calm video_url = None
  /\ fst (download_youtube calm video_url (init_world ∅))
     = Val "./videos/v.mp4"
  /\ fs (snd (download_youtube calm video_url (init_world ∅)))
     = {["./videos/v.mp4"]} ∪ fs (init_world ∅).
Proof.
  assert (H : refused_before_download calm video_url = None) by reflexivity.
  destruct (download_youtube_after_acceptance calm video_url (init_world ∅)
              H) as (_ & _ & _ & Hok & _).
  destruct (Hok "./videos/v.mp4" eq_refl) as (Hv & Hfs & _).
  split; [exact H |]. split; [exact Hv | exact Hfs].
Defined.

(** ** What [delete_file] leaves *)

(** X11.  The state after [delete_file], in full.  The disk loses
    [file_path] when [os.remove] does not fail, and is otherwise as before;
    the remote store loses the asset's name when [uploaded_file.delete()]
    does not fail, and is otherwise as before.  No other file and no other
    asset is touched, and the top-level names stay bound as they were. *)
Theorem delete_file_final_state (B : backend) (file_path : string)
    (uploaded_file : file) (w : world) :
  let w' := snd (delete_file B file_path uploaded_file w) in
  fs w'
  = match os_remove B (n_rm w) file_path with
    | None => fs w ∖ {[file_path]}
    | Some _ => fs w
    end
  /\ remote w'
     = match remote_delete B (n_del w) (name uploaded_file) with
       | None => remote w ∖ {[name uploaded_file]}
       | Some _ => remote w
       end
  /\ globals w' = globals w.
Proof.
  unfold delete_file, path_exists. run.
  destruct (bool_decide (file_path ∈ fs w)) eqn:Hex;
    [apply bool_decide_eq_true in Hex | apply bool_decide_eq_false in Hex];
    simpl;
    destruct (os_remove B (n_rm w) file_path) eqn:Hrm; run;
    destruct (remote_delete B (n_del w) (name uploaded_file)) eqn:Hdel;
    run; repeat split; set_solver.
Qed.

(** X12.  Cleaning up twice.  After a call of [delete_file] whose
    [os.remove] did not fail, a second call with the same arguments returns
    normally, finds the file absent and does not call [os.remove] again,
    leaves the disk as it is, and still calls [uploaded_file.delete()]
    once. *)
Theorem delete_file_twice (B : backend) (file_path : string)
    (uploaded_file : file) (w : world) :
  os_remove B (n_rm w) file_path = None ->
  let w1 := snd (delete_file B file_path uploaded_file w) in
  let r2 := delete_file B file_path uploaded_file w1 in
  let evs := new_events w1 (snd r2) in
  fst r2 = Val tt
  /\ count is_remove evs = 0%nat
  /\ fs (snd r2) = fs w1
  /\ List.filter is_retry_step evs = [EvRemoteDelete (name uploaded_file)].
Proof.
  intros Hrm w1 r2 evs. subst evs r2 w1.
  destruct (delete_file_run B file_path uploaded_file w)
    as (evs1 & w1 & Hrun1 & Hce1).
  rewrite Hrun1. simpl snd.
  pose proof (ce_fs_gone _ _ _ _ _ _ Hce1 Hrm) as Hgone.
  destruct (delete_file_run B file_path uploaded_file w1)
    as (evs2 & w2 & Hrun2 & Hce2).
  rewrite Hrun2. simpl fst. simpl snd. destruct Hce2.
  rewrite (new_events_app _ _ _ ce_trace0).
  split; [reflexivity |]. split; [| split].
  - rewrite ce_remove0. now rewrite bool_decide_eq_false_2.
  - now apply ce_fs_absent0.
  - exact ce_steps0.
Qed.

Lemma delete_file_twice_witness :
  os_remove calm (n_rm (init_world {["./videos/v.mp4"]})) "./videos/v.mp4"
  = None
  /\ count is_remove
       (new_events
          (snd (delete_file calm "./videos/v.mp4" (File "files/abc" ACTIVE)
                  (init_world {["./videos/v.mp4"]})))
          (snd (delete_file calm "./videos/v.mp4" (File "files/abc" ACTIVE)
                  (snd (delete_file calm "./videos/v.mp4"
                          (File "files/abc" ACTIVE)
                          (init_world {["./videos/v.mp4"]}))))))
     = 0%nat.
Proof.
  assert (H : os_remove calm (n_rm (init_world {["./videos/v.mp4"]}))
                "./videos/v.mp4" = None) by reflexivity.
  destruct (delete_file_twice calm "./videos/v.mp4" (File "files/abc" ACTIVE)
              (init_world {["./videos/v.mp4"]}) H) as (_ & Hc & _).
  split; [exact H | exact Hc].
Defined.

(** ** Start-up *)

(** X13.  [set_background_image] never raises.  If the image can be read
    the style sheet is injected with one [st.markdown] call; if not, the
    error is logged as a warning and nothing is injected.  Disk, remote
    store and top-level names are left alone. *)
Theorem set_background_image_never_raises (B : backend)
    (image_path : string) (w : world) :
  let r := set_background_image B image_path w in
  fst r = Val tt
  /\ new_events w (snd r)
     = EvLog INFO (LogBackground image_path)
       :: match read_image B image_path with
          | None => [EvStMarkdown "background css"]
          | Some e => [EvLog WARNING (LogBackgroundFail e)]
          end
  /\ fs (snd r) = fs w
  /\ remote (snd r) = remote w
  /\ globals (snd r) = globals w.
Proof.
  unfold set_background_image. run.
  destruct (read_image B image_path) as [e|]; run;
    (split; [reflexivity |]); (split; [| now repeat split]).
  - apply new_events_app. now rewrite <- !app_assoc.
  - apply new_events_app. now rewrite <- !app_assoc.
Qed.

Opaque button_handler.

(** X14.  A run of the script ends at [st.stop()] exactly when the variable
    [GENAI_API_KEY] is absent or empty; an empty key is refused like a
    missing one, with the same three calls.  With a key the script runs to
    its end unless the polling loop is cut short, and no exception ever
    leaves the script, clicked or not, whether or not the background image
    can be read. *)
Theorem app_stops_iff_key_missing_or_empty (B : backend) (fuel : nat)
    (environ : gmap string string) (url prompt : string) (clicked : bool)
    (w : world) :
  let r := app B fuel environ url prompt clicked w in
  (fst r = Val Stopped
   <-> (getenv environ "GENAI_API_KEY" = None
        \/ getenv environ "GENAI_API_KEY" = Some ""))
  /\ (fst r = Val Stopped ->
      new_events w (snd r)
      = [EvStError MSG_NO_KEY; EvLog ERROR LogNoApiKey; EvStStop])
  /\ (forall e, fst r <> Exc e)
  /\ (clicked = false -> fst r <> NoFuel).
Proof.
  intros r. subst r. unfold app.
  destruct (getenv environ "GENAI_API_KEY") as [[|c key]|] eqn:Hkey; simpl.
  - run. split; [split; [now right | reflexivity] |].
    split; [| split; [discriminate | discriminate]].
    intros _. apply new_events_app. now rewrite <- !app_assoc.
  - unfold set_background_image. run.
    destruct (read_image B background_image_path) as [e0|]; run;
      destruct clicked; run.
    all: try (split; [split; [discriminate | intros [H | H]; discriminate] |];
              split; [discriminate |]; split; discriminate).
    all: match goal with
         | |- context [button_handler _ _ _ _ _ ?w0] =>
             destruct (button_handler_run B fuel environ prompt url w0)
               as (tail & Hhe);
             cbv zeta in Hhe;
             pose proof (he_total _ _ _ _ Hhe) as Htot; clear Hhe;
             destruct (button_handler B fuel environ prompt url w0)
               as [[[]|e1|] w1]
         end; simpl in *.
    all: try (now contradiction (Htot e1)).
    all: split; [split; [discriminate | intros [H | H]; discriminate] |];
         split; [discriminate |]; split; discriminate.
  - run. split; [split; [now left | reflexivity] |].
    split; [| split; [discriminate | discriminate]].
    intros _. apply new_events_app. now rewrite <- !app_assoc.
Qed.

(** X15.  A page load without a click, with a key configured: the script
    configures the client with that key, sets the background, draws the
    title and the two inputs, and finishes.  It downloads nothing, uploads
    nothing, sends no request and deletes nothing; disk and remote store
    are as before. *)
Theorem page_load_runs_no_pipeline (B : backend) (fuel : nat)
    (environ : gmap string string) (url prompt key : string) (w : world) :
  getenv environ "GENAI_API_KEY" = Some key ->
  key <> "" ->
  let r := app B fuel environ url prompt false w in
  let evs := new_events w (snd r) in
  fst r = Val Finished
  /\ hd_error evs = Some (EvConfigure key)
  /\ evs
     = [EvConfigure key]
       ++ new_events w (snd (set_background_image B background_image_path w))
       ++ [EvStTitle; EvStInput url; EvStInput prompt]
  /\ List.filter is_download evs = []
  /\ List.filter is_upload evs = []
  /\ List.filter is_generate evs = []
  /\ List.filter is_deletion evs = []
  /\ fs (snd r) = fs w
  /\ remote (snd r) = remote w.
Proof.
  intros Hkey Hne r evs. subst r evs. unfold app. rewrite Hkey.
  destruct key as [|c key]; [now contradiction Hne |]. simpl.
  unfold set_background_image. run.
  destruct (read_image B background_image_path) as [e0|]; run.
  - rewrite (new_events_app w _
               [EvConfigure (String c key);
                EvLog INFO (LogBackground background_image_path);
                EvLog WARNING (LogBackgroundFail e0);
                EvStTitle; EvStInput url; EvStInput prompt])
      by (simpl; now rewrite <- !app_assoc).
    rewrite (new_events_app w _
               [EvLog INFO (LogBackground background_image_path);
                EvLog WARNING (LogBackgroundFail e0)])
      by (simpl; now rewrite <- !app_assoc).
    now repeat split.
  - rewrite (new_events_app w _
               [EvConfigure (String c key);
                EvLog INFO (LogBackground background_image_path);
                EvStMarkdown "background css";
                EvStTitle; EvStInput url; EvStInput prompt])
      by (simpl; now rewrite <- !app_assoc).
    rewrite (new_events_app w _
               [EvLog INFO (LogBackground background_image_path);
                EvStMarkdown "background css"])
      by (simpl; now rewrite <- !app_assoc).
    now repeat split.
Qed.

Transparent button_handler.

Lemma app_stops_iff_key_missing_or_empty_witness :
  getenv {["GENAI_API_KEY" := ""]} "GENAI_API_KEY" = Some ""
  /\ fst (app calm 1000 {["GENAI_API_KEY" := ""]} video_url prompt_default
            true (init_world ∅))
     = Val Stopped
  /\ new_events (init_world ∅)
       (snd (app calm 1000 {["GENAI_API_KEY" := ""]} video_url
               prompt_default true (init_world ∅)))
     = [EvStError MSG_NO_KEY; EvLog ERROR LogNoApiKey; EvStStop].
Proof.
  assert (H : getenv {["GENAI_API_KEY" := ""]} "GENAI_API_KEY" = Some "")
    by (vm_compute; reflexivity).
  destruct (app_stops_iff_key_missing_or_empty calm 1000
              {["GENAI_API_KEY" := ""]} video_url prompt_default true
              (init_world ∅)) as ((_ & Hstop) & Hevs & _).
  split; [exact H |].
  split; [exact (Hstop (or_intror H)) | exact (Hevs (Hstop (or_intror H)))].
Defined.

Lemma page_load_runs_no_pipeline_witness :
  getenv key_only "GENAI_API_KEY" = Some "secret"
  /\ "secret" <> ""
  /\ fst (app calm 1000 key_only video_url prompt_default false
            (init_world ∅))
     = Val Finished.
Proof.
  assert (H1 : getenv key_only "GENAI_API_KEY" = Some "secret")
    by (vm_compute; reflexivity).
  assert (H2 : "secret" <> "") by discriminate.
  destruct (page_load_runs_no_pipeline calm 1000 key_only video_url
              prompt_default "secret" (init_world ∅) H1 H2) as (Hv & _).
  split; [exact H1 |]. split; [exact H2 | exact Hv].
Defined.

(** ** The model *)

(** X16.  When the variable [GENAI_MODEL_NAME] is set, its value names the
    model, whatever it is: the handler builds the model with it and every
    generation request of the run is sent to it.  The default is used only
    when the variable is absent, not when it is empty. *)
Theorem model_name_from_environment (B : backend) (fuel : nat)
    (environ : gmap string string) (prompt url model_name : string)
    (w : world) :
  getenv environ "GENAI_MODEL_NAME" = Some model_name ->
  let evs := new_events w (snd (button_handler B fuel environ prompt url w)) in
  hd_error evs = Some (EvModel model_name)
  /\ Forall (requests_model model_name) evs.
Proof.
  unfold getenv. intros Hmodel. cbv zeta.
  destruct (button_handler_run B fuel environ prompt url w) as (tail & Hhe).
  cbv zeta in Hhe. unfold getenv_default in Hhe. rewrite Hmodel in Hhe.
  destruct (recog_video_run B fuel prompt url model_name 5 10
              (handler_entry model_name w)) as (stage & rest & Hpe).
  destruct Hhe, Hpe.
  assert (Hnew :
    trace (snd (button_handler B fuel environ prompt url w))
    = trace w
      ++ ([EvModel model_name; EvStSpinner] ++ stage ++ rest ++ tail)).
  { rewrite he_trace0, pe_trace0. simpl. now rewrite <- !app_assoc. }
  rewrite (new_events_app _ _ _ Hnew). split; [reflexivity |].
  repeat (apply Forall_cons; split; [exact I |]).
  rewrite !Forall_app. repeat split.
  - now apply no_generate_requests_model.
  - exact pe_model0.
  - now apply no_generate_requests_model.
Qed.

Lemma model_name_from_environment_witness :
  getenv (<["GENAI_MODEL_NAME" := ""]> key_only) "GENAI_MODEL_NAME"
  = Some ""
  /\ Forall (requests_model "")
       (new_events (init_world ∅)
          (snd (button_handler calm 1000
                  (<["GENAI_MODEL_NAME" := ""]> key_only) prompt_default
                  video_url (init_world ∅)))).
Proof.
  assert (H : getenv (<["GENAI_MODEL_NAME" := ""]> key_only)
                "GENAI_MODEL_NAME" = Some "")
    by (vm_compute; reflexivity).
  destruct (model_name_from_environment calm 1000
              (<["GENAI_MODEL_NAME" := ""]> key_only) prompt_default
              video_url "" (init_world ∅) H) as (_ & Hall).
  split; [exact H | exact Hall].
Defined.

(** ** A delay that [time.sleep] refuses *)

(** X17.  When [time.sleep] refuses [retry_delay] (a negative or too large
    number of seconds) and the first of at least two attempts is overloaded,
    the loop of [recog_video] is left by the exception of the sleep, raised
    inside the handler of the overloaded error: one request was sent, no
    other follows, [delete_file] is not called and no [RuntimeError] is
    raised, so disk and remote store are as they were. *)
Theorem refused_sleep_ends_the_loop (B : backend)
    (model prompt file_path : string) (uploaded_file : file)
    (max_retries retry_delay : Z) (w : world) (refusal : exn) :
  sleep_error retry_delay = Some refusal ->
  2 <= max_retries ->
  overloaded_at B (n_gen w) = true ->
  let r := attempts_loop B model prompt file_path uploaded_file max_retries
             retry_delay (range 1 (max_retries + 1)) w in
  fst r = Exc refusal
  /\ new_events w (snd r)
     = [EvLog INFO (LogAttempt 1 max_retries);
        EvGenerate model prompt uploaded_file 120;
        EvLog WARNING (LogOverloaded (error_at B (n_gen w)));
        EvStWarningRetry 1 max_retries;
        EvSleep retry_delay]
  /\ fs (snd r) = fs w
  /\ remote (snd r) = remote w.
Proof.
  intros Hsleep Hmax Hov r. subst r.
  rewrite range_cons by lia. rewrite loop_cons.
  unfold overloaded_at, error_at in *.
  destruct (snd (generate_content B (n_gen w))) as [e|]; [| discriminate].
  rewrite Hov, Hsleep.
  replace (1 <? max_retries) with true by (symmetry; apply Z.ltb_lt; lia).
  simpl. repeat split.
  apply new_events_app. reflexivity.
Qed.

Lemma refused_sleep_ends_the_loop_witness :
  sleep_error (-1) = Some (ValueError MSG_SLEEP_NEGATIVE)
  /\ 2 <= 5
  /\ overloaded_at always_overloaded
       (n_gen (init_world {["./videos/v.mp4"]})) = true
  /\ fst (attempts_loop always_overloaded "gemini-2.0-flash" prompt_default
            "./videos/v.mp4" (File "files/abc" ACTIVE) 5 (-1)
            (range 1 (5 + 1)) (init_world {["./videos/v.mp4"]}))
     = Exc (ValueError MSG_SLEEP_NEGATIVE)
  /\ fs (snd (attempts_loop always_overloaded "gemini-2.0-flash"
                prompt_default "./videos/v.mp4" (File "files/abc" ACTIVE) 5
                (-1) (range 1 (5 + 1)) (init_world {["./videos/v.mp4"]})))
     = fs (init_world {["./videos/v.mp4"]}).
Proof.
  assert (H1 : sleep_error (-1) = Some (ValueError MSG_SLEEP_NEGATIVE))
    by reflexivity.
  assert (H2 : 2 <= 5) by lia.
  assert (H3 : overloaded_at always_overloaded
                 (n_gen (init_world {["./videos/v.mp4"]})) = true)
    by reflexivity.
  destruct (refused_sleep_ends_the_loop always_overloaded "gemini-2.0-flash"
              prompt_default "./videos/v.mp4" (File "files/abc" ACTIVE) 5
              (-1) (init_world {["./videos/v.mp4"]})
              (ValueError MSG_SLEEP_NEGATIVE) H1 H2 H3)
    as (Hv & _ & Hfs & _).
  split; [exact H1 |]. split; [exact H2 |]. split; [exact H3 |].
  split; [exact Hv | exact Hfs].
Defined.
